(** * OpenVPN 3 Linux: desktop session watcher and session log tailer

    A shallow embedding of the two Python scripts
    - [src/python/session-watcher/openvpn3-desktop-session-watcher.py]
    - [src/tests/python/watch-session-log.py]
    and the properties of their notification mapping, session registry
    and console output.

    Python objects become records, methods become functions taking the
    object (and whatever shared state they touch) and returning the updated
    one.  Dictionaries are insertion-ordered association lists, so that
    "a key occurs at most once" is a statement to prove instead of a
    property of the container type.  The DEBUG console tracing of the
    session watcher (only active when OPENVPN3_DEBUG is set) and the
    [time.sleep] calls have no effect on any state modelled here and are
    left out. *)

From Stdlib Require Import ZArith Lia Ascii String.
From stdpp Require Import base strings option list.

Local Open Scope Z_scope.

(** ** Python dictionaries keyed by strings *)

Module PyDict.

Definition t (V : Type) : Type := list (string * V).

Definition empty {V} : t V := [].

(** [d.get(k)]; [d[k]] when the key is known to be present *)
Fixpoint get {V} (k : string) (d : t V) : option V :=
  match d with
  | [] => None
  | (k', v) :: d' => if String.eqb k k' then Some v else get k d'
  end.

(** [k in d] *)
Definition contains {V} (k : string) (d : t V) : bool :=
  match get k d with Some _ => true | None => false end.

(** [d[k] = v]: replaces the value of an existing key in place, appends
    a new key at the end *)
Fixpoint set {V} (k : string) (v : V) (d : t V) : t V :=
  match d with
  | [] => [(k, v)]
  | (k', v') :: d' =>
      if String.eqb k k' then (k', v) :: d' else (k', v') :: set k v d'
  end.

(** [d.pop(k)], for a key that is present (Python raises KeyError
    otherwise; every call in the scripts is guarded by [k in d]) *)
Fixpoint pop {V} (k : string) (d : t V) : t V :=
  match d with
  | [] => []
  | (k', v') :: d' => if String.eqb k k' then d' else (k', v') :: pop k d'
  end.

Definition keys {V} (d : t V) : list string := map fst d.

Definition values {V} (d : t V) : list V := map snd d.

End PyDict.

(** ** The enumerations of [openvpn3.constants] *)

(** Modelled from the spec: the module [openvpn3.constants] defining
    [StatusMajor], [StatusMinor] and [SessionManagerEventType] is not among
    the sources.  The members the two scripts name are constructors of
    their own; any other member of the enumeration is [..Other name],
    identified by its member name.  Members of a Python [Enum] are equal
    exactly when they are the same member. *)
Inductive StatusMajor : Type :=
| SESSION
| CONNECTION
| MajorOther (name : string).

Inductive StatusMinor : Type :=
| SESS_AUTH_URL
| CONN_CONNECTED
| CONN_RECONNECTING
| CONN_DISCONNECTED
| CONN_FAILED
| CONN_AUTH_FAILED
| PROC_STOPPED
| MinorOther (name : string).

Inductive SessionManagerEventType : Type :=
| SESS_CREATED
| SESS_DESTROYED
| EventTypeOther (name : string).

#[global] Instance StatusMajor_eq_dec : EqDecision StatusMajor.
Proof. solve_decision. Defined.

#[global] Instance StatusMinor_eq_dec : EqDecision StatusMinor.
Proof. solve_decision. Defined.

#[global] Instance SessionManagerEventType_eq_dec :
  EqDecision SessionManagerEventType.
Proof. solve_decision. Defined.

(** [str(member)] of a Python [Enum]: class name, a dot, member name *)
Definition StatusMajor_name (m : StatusMajor) : string :=
  match m with
  | SESSION => "SESSION"
  | CONNECTION => "CONNECTION"
  | MajorOther name => name
  end.

Definition StatusMinor_name (m : StatusMinor) : string :=
  match m with
  | SESS_AUTH_URL => "SESS_AUTH_URL"
  | CONN_CONNECTED => "CONN_CONNECTED"
  | CONN_RECONNECTING => "CONN_RECONNECTING"
  | CONN_DISCONNECTED => "CONN_DISCONNECTED"
  | CONN_FAILED => "CONN_FAILED"
  | CONN_AUTH_FAILED => "CONN_AUTH_FAILED"
  | PROC_STOPPED => "PROC_STOPPED"
  | MinorOther name => name
  end.

Definition str_StatusMajor (m : StatusMajor) : string :=
  "StatusMajor." +:+ StatusMajor_name m.

Definition str_StatusMinor (m : StatusMinor) : string :=
  "StatusMinor." +:+ StatusMinor_name m.

(** The value tables of the two status enumerations: [StatusMajor(v)] and
    [StatusMinor(v)] look a member up by its integer value and raise
    [ValueError] ([None] here) for a value no member has.  The tables live
    in [openvpn3.constants]; the scripts are modelled over any table. *)
Record StatusCodes : Type := {
  StatusMajor_of_value : Z -> option StatusMajor;
  StatusMinor_of_value : Z -> option StatusMinor
}.

(** A status as handed to the watcher: [(major, minor, message)] *)
Record Status : Type := {
  status_major : StatusMajor;
  status_minor : StatusMinor;
  status_message : string
}.

(** A name between double quotes, as the format strings of both scripts
    put it into their messages *)
Definition quoted (name : string) : string :=
  String "034"%char (name +:+ String "034"%char EmptyString).

(** ** The desktop notification service (org.freedesktop.Notifications) *)

(** The service is external to the repository.  What matters here is the
    sequence of method calls it receives and the id it answers a [Notify]
    call with.  The two dictionary arguments of [Notify] (actions, hints)
    are always empty in the scripts and are not recorded. *)
Inductive ServiceCall : Type :=
| CallNotify (app_name : string) (replaces_id : Z) (app_icon : string)
             (summary body : string) (expire_timeout : Z)
| CallCloseNotification (nid : Z).

Record Service : Type := {
  service_calls : list ServiceCall;
  service_next_id : Z
}.

Definition Service_Notify (app_name : string) (replaces_id : Z)
    (app_icon summary body : string) (expire_timeout : Z) (s : Service)
    : Z * Service :=
  (service_next_id s,
   {| service_calls :=
        service_calls s ++
        [CallNotify app_name replaces_id app_icon summary body expire_timeout];
      service_next_id := service_next_id s + 1 |}).

Definition Service_CloseNotification (nid : Z) (s : Service) : Service :=
  {| service_calls := service_calls s ++ [CallCloseNotification nid];
     service_next_id := service_next_id s |}.

Definition is_close_call (c : ServiceCall) : bool :=
  match c with CallCloseNotification _ => true | CallNotify _ _ _ _ _ _ => false end.

Definition is_notify_call (c : ServiceCall) : bool :=
  match c with CallNotify _ _ _ _ _ _ => true | CallCloseNotification _ => false end.

(** ** class Notify *)

Module Notify.

(** The fields of a [Notify] object.  A dictionary value is whatever
    [__notify] evaluated to: a notification id, or Python's [None]. *)
Record t : Type := {
  service : Service;
  auth_notif : PyDict.t (option Z);
  reconn_notif : PyDict.t (option Z)
}.

(** [__init__], once the service object is reachable *)
Definition init (s : Service) : t :=
  {| service := s; auth_notif := PyDict.empty; reconn_notif := PyDict.empty |}.

Definition set_service (s : Service) (n : t) : t :=
  {| service := s; auth_notif := auth_notif n; reconn_notif := reconn_notif n |}.

Definition set_auth_notif (d : PyDict.t (option Z)) (n : t) : t :=
  {| service := service n; auth_notif := d; reconn_notif := reconn_notif n |}.

Definition set_reconn_notif (d : PyDict.t (option Z)) (n : t) : t :=
  {| service := service n; auth_notif := auth_notif n; reconn_notif := d |}.

(** [__notify(title, msg)]: the id the service answers with is bound to
    the local [nid], which only feeds the DEBUG line; the method body
    ends without a [return] statement, so the call evaluates to [None]. *)
Definition __notify (title msg : string) (n : t) : option Z * t :=
  let '(nid, s) :=
    Service_Notify "OpenVPN 3 Linux" 0 "network" title msg 0 (service n) in
  (None, set_service s n).

(** [__close_notify(nid)] *)
Definition __close_notify (nid : option Z) (n : t) : t :=
  match nid with
  | None => n
  | Some id => set_service (Service_CloseNotification id (service n)) n
  end.

(** [CloseNotification(group, path)] *)
Definition CloseNotification (group path : string) (n : t) : t :=
  if String.eqb "auth" group then
    match PyDict.get path (auth_notif n) with
    | Some nid => __close_notify nid n
    | None => n
    end
  else if String.eqb "reconnect" group then
    match PyDict.get path (reconn_notif n) with
    | Some nid => __close_notify nid n
    | None => n
    end
  else n.

(** In each of the five methods below the right-hand side
    [self.__notify(..)] is evaluated first and its value is then stored
    under [path]. *)
Definition WebAuthenticate (path url : string) (n : t) : t :=
  let n :=
    if PyDict.contains path (auth_notif n)
    then CloseNotification "auth" path n else n in
  let '(r, n) :=
    __notify "OpenVPN - Authentication Required" ("Visit " +:+ url) n in
  set_auth_notif (PyDict.set path r (auth_notif n)) n.

Definition Connected (path name : string) (n : t) : t :=
  let n :=
    if PyDict.contains path (auth_notif n)
    then CloseNotification "auth" path n else n in
  let '(r, n) :=
    __notify "OpenVPN - Authentication Successful"
      ("OpenVPN session " +:+ quoted name +:+ " connected successfully") n in
  set_auth_notif (PyDict.set path r (auth_notif n)) n.

Definition Reconnecting (path name : string) (n : t) : t :=
  let n :=
    if PyDict.contains path (reconn_notif n)
    then CloseNotification "reconnect" path n else n in
  let '(r, n) :=
    __notify "OpenVPN session reconnecting"
      ("Session " +:+ quoted name +:+ " is reconnecting") n in
  set_reconn_notif (PyDict.set path r (reconn_notif n)) n.

Definition Reconnected (path name : string) (n : t) : t :=
  let n :=
    if PyDict.contains path (reconn_notif n)
    then CloseNotification "reconnect" path n else n in
  let '(r, n) :=
    __notify "OpenVPN session reconnected"
      ("Session " +:+ quoted name +:+ " reconnected successfully") n in
  set_reconn_notif (PyDict.set path r (reconn_notif n)) n.

Definition Disconnected (path name : string) (n : t) : t :=
  let n :=
    if PyDict.contains path (auth_notif n)
    then CloseNotification "auth" path n else n in
  let n :=
    if PyDict.contains path (reconn_notif n)
    then CloseNotification "reconnect" path n else n in
  let '(r, n) :=
    __notify "OpenVPN session disconnected"
      ("Session " +:+ quoted name +:+ " was disconnected") n in
  set_reconn_notif (PyDict.set path r (reconn_notif n)) n.

End Notify.

(** ** The session proxy and session manager of the [openvpn3] module *)

(** Modelled from the spec: the classes [openvpn3.Session] and
    [openvpn3.SessionManager] are not among the sources.  From the spec's
    session object interface: [GetPath()], [GetProperty(name)] and
    [StatusChangeCallback(handler|null)], which attaches the handler to the
    session's status-change signal, or detaches the attached one when given
    null.  A handler is the bound method [__status_chg_handler] of a
    watcher object and is identified by that object's address.
    [Retrieve(path)] answers with a new proxy for the session at [path],
    nothing attached. *)
Module Session.

Record t : Type := {
  path : string;
  config_name : string;
  status_callback : option nat
}.

Definition GetPath (s : t) : string := path s.

Definition GetProperty_config_name (s : t) : string := config_name s.

Definition StatusChangeCallback (handler : option nat) (s : t) : t :=
  {| path := path s; config_name := config_name s;
     status_callback := handler |}.

End Session.

Module SessionManager.

(** The manager is external; of its state only the configuration name
    of each session matters here. *)
Record t : Type := { config_name_of : string -> string }.

Definition Retrieve (path : string) (m : t) : Session.t :=
  {| Session.path := path;
     Session.config_name := config_name_of m path;
     Session.status_callback := None |}.

End SessionManager.

(** ** class SessionWatcher *)

Module SessionWatcher.

(** The fields of a watcher.  The [Notify] object it points at is the
    one shared object of the process and is passed to (and returned by)
    every method that uses it. *)
Record t : Type := {
  session : Session.t;
  reconnecting : bool;
  path : string;
  cfgname : string
}.

Definition set_reconnecting (b : bool) (w : t) : t :=
  {| session := session w; reconnecting := b;
     path := path w; cfgname := cfgname w |}.

Definition set_session (s : Session.t) (w : t) : t :=
  {| session := s; reconnecting := reconnecting w;
     path := path w; cfgname := cfgname w |}.

(** [__init__(notify, session)] for the object at address [self] *)
Definition init (self : nat) (s : Session.t) : t :=
  {| session := Session.StatusChangeCallback (Some self) s;
     reconnecting := false;
     path := Session.GetPath s;
     cfgname := Session.GetProperty_config_name s |}.

(** [__evaluate_status(major, minor, msg)] *)
Definition __evaluate_status (major : StatusMajor) (minor : StatusMinor)
    (msg : string) (w : t) (n : Notify.t) : t * Notify.t :=
  if decide (SESSION = major) then
    if decide (SESS_AUTH_URL = minor) then
      (w, Notify.WebAuthenticate (path w) msg n)
    else (w, n)
  else if decide (CONNECTION = major) then
    if decide (CONN_CONNECTED = minor) then
      if negb (reconnecting w) then
        (w, Notify.Connected (path w) (cfgname w) n)
      else
        (set_reconnecting false w,
         Notify.Reconnected (path w) (cfgname w) n)
    else if decide (CONN_RECONNECTING = minor) then
      (set_reconnecting true w,
       Notify.Reconnecting (path w) (cfgname w) n)
    else if decide (CONN_DISCONNECTED = minor) then
      (w, Notify.Disconnected (path w) (cfgname w) n)
    else (w, n)
  else (w, n).

(** [__status_chg_handler(major, minor, msg)]: [None] when one of the
    two conversions raises *)
Definition __status_chg_handler (codes : StatusCodes) (major minor : Z)
    (msg : string) (w : t) (n : Notify.t) : option (t * Notify.t) :=
  match StatusMajor_of_value codes major with
  | None => None
  | Some maj =>
      match StatusMinor_of_value codes minor with
      | None => None
      | Some min => Some (__evaluate_status maj min msg w n)
      end
  end.

(** [CheckStatus()]; [status] is what [GetStatus()] answered *)
Definition CheckStatus (status : Status) (w : t) (n : Notify.t)
    : t * Notify.t :=
  __evaluate_status (status_major status) (status_minor status)
    (status_message status) w n.

(** [Stop()] *)
Definition Stop (w : t) (n : Notify.t) : t * Notify.t :=
  let n := Notify.CloseNotification "auth" (path w) n in
  (set_session (Session.StatusChangeCallback None (session w)) w, n).

(** Delivering a list of statuses to one watcher, oldest first *)
Fixpoint deliver (events : list Status) (w : t) (n : Notify.t)
    : t * Notify.t :=
  match events with
  | [] => (w, n)
  | e :: rest =>
      let '(w, n) :=
        __evaluate_status (status_major e) (status_minor e)
          (status_message e) w n in
      deliver rest w n
  end.

End SessionWatcher.

(** ** class SessionManagerWatcher *)

(** A [SessionManagerEvent] as the handler reads it *)
Record ManagerEvent : Type := {
  GetType : SessionManagerEventType;
  GetOwner : Z;
  GetPath : string
}.

Module SessionManagerWatcher.

(** The fields of the manager watcher, and the [SessionWatcher] objects
    constructed so far: [objects] is the store they live in, an address
    is an index into it, and [sessions] maps a session path to the
    address of its watcher.  A watcher that is no longer in [sessions]
    stays in the store: the signal connection of an attached handler
    still refers to it. *)
Record t : Type := {
  notify : Notify.t;
  sessmgr : SessionManager.t;
  sessions : PyDict.t nat;
  objects : list SessionWatcher.t
}.

(** [__init__(sessmgr)]; [s] is the notification service [Notify()]
    connects to *)
Definition init (s : Service) (mgr : SessionManager.t) : t :=
  {| notify := Notify.init s; sessmgr := mgr;
     sessions := PyDict.empty; objects := [] |}.

Definition set_sessions (d : PyDict.t nat) (m : t) : t :=
  {| notify := notify m; sessmgr := sessmgr m;
     sessions := d; objects := objects m |}.

(** Calling a method of the watcher object at address [addr] *)
Definition call (addr : nat)
    (method : SessionWatcher.t -> Notify.t -> SessionWatcher.t * Notify.t)
    (m : t) : t :=
  match objects m !! addr with
  | None => m
  | Some w =>
      let '(w', n') := method w (notify m) in
      {| notify := n'; sessmgr := sessmgr m; sessions := sessions m;
         objects := <[addr := w']> (objects m) |}
  end.

(** [Register(path)] *)
Definition Register (path : string) (m : t) : t :=
  let session := SessionManager.Retrieve path (sessmgr m) in
  let addr := length (objects m) in
  let w := SessionWatcher.init addr session in
  {| notify := notify m; sessmgr := sessmgr m;
     sessions := PyDict.set path addr (sessions m);
     objects := objects m ++ [w] |}.

(** [__mgr_event_handler(event)]; [uid] is what [os.getuid()] answers *)
Definition __mgr_event_handler (uid : Z) (event : ManagerEvent) (m : t) : t :=
  if existsb (Z.eqb (GetOwner event)) [uid; 0] then
    if decide (SESS_CREATED = GetType event) then
      Register (GetPath event) m
    else if decide (SESS_DESTROYED = GetType event) then
      match PyDict.get (GetPath event) (sessions m) with
      | Some addr =>
          let m := call addr SessionWatcher.Stop m in
          set_sessions (PyDict.pop (GetPath event) (sessions m)) m
      | None => m
      end
    else m
  else m.

(** [CheckStatus(session_path)]; [status] is what the session's
    [GetStatus()] answers *)
Definition CheckStatus (session_path : string) (status : Status) (m : t) : t :=
  match PyDict.get session_path (sessions m) with
  | Some addr => call addr (SessionWatcher.CheckStatus status) m
  | None => m
  end.

(** The handlers attached to the status-change signal of the session at
    [path], in the order the watchers were constructed *)
Definition receivers (path : string) (m : t) : list nat :=
  omap (fun w =>
          if String.eqb (Session.path (SessionWatcher.session w)) path
          then Session.status_callback (SessionWatcher.session w)
          else None)
       (objects m).

(** One handler invocation by the main loop; a handler that raises
    leaves everything as it was *)
Definition invoke_handler (codes : StatusCodes) (major minor : Z)
    (msg : string) (m : t) (addr : nat) : t :=
  match objects m !! addr with
  | None => m
  | Some w =>
      match SessionWatcher.__status_chg_handler codes major minor msg
              w (notify m) with
      | None => m
      | Some (w', n') =>
          {| notify := n'; sessmgr := sessmgr m; sessions := sessions m;
             objects := <[addr := w']> (objects m) |}
      end
  end.

(** A StatusChange signal of the session at [path] reaching the process *)
Definition StatusChange (codes : StatusCodes) (path : string)
    (major minor : Z) (msg : string) (m : t) : t :=
  foldl (invoke_handler codes major minor msg) m (receivers path m).

(** What can happen to the manager watcher: the two public methods and
    the two kinds of signals *)
Inductive Op : Type :=
| OpRegister (path : string)
| OpCheckStatus (path : string) (status : Status)
| OpManagerEvent (event : ManagerEvent)
| OpStatusChange (path : string) (major minor : Z) (msg : string).

Definition step (uid : Z) (codes : StatusCodes) (m : t) (op : Op) : t :=
  match op with
  | OpRegister path => Register path m
  | OpCheckStatus path status => CheckStatus path status m
  | OpManagerEvent event => __mgr_event_handler uid event m
  | OpStatusChange path major minor msg =>
      StatusChange codes path major minor msg m
  end.

Definition run (uid : Z) (codes : StatusCodes) (ops : list Op) (m : t) : t :=
  foldl (step uid codes) m ops.

(** The main program up to [mainloop.run()]: every session
    [FetchAvailableSessions()] lists is registered and checked *)
Definition startup (available : list (string * Status)) : list Op :=
  flat_map (fun '(path, status) =>
              [OpRegister path; OpCheckStatus path status]) available.

(** The main program: the manager watcher is set up, the running
    sessions are registered, and the main loop hands over the signals that
    arrive *)
Definition main (uid : Z) (codes : StatusCodes) (s : Service)
    (mgr : SessionManager.t) (available : list (string * Status))
    (signals : list Op) : t :=
  run uid codes (startup available ++ signals) (init s mgr).

End SessionManagerWatcher.

(** ** watch-session-log.py *)

Module WatchSessionLog.

Definition newline : ascii := "010"%char.

(** [msg.split('\n')]: never empty, the empty string gives one empty
    piece *)
Fixpoint split_lines (msg : string) : list string :=
  match msg with
  | EmptyString => [EmptyString]
  | String c rest =>
      if Ascii.eqb c newline then EmptyString :: split_lines rest
      else match split_lines rest with
           | [] => [String c EmptyString]
           | l :: ls => String c l :: ls
           end
  end.

(** [' ' * 33] *)
Definition indent : string := string_of_list_ascii (repeat " "%char 33).

(** The process as the handlers see it: what was printed so far, one
    entry per [print] call, and whether [mainloop.quit()] was called *)
Record Console : Type := {
  stdout : list string;
  quit_called : bool
}.

Definition print (line : string) (c : Console) : Console :=
  {| stdout := stdout c ++ [line]; quit_called := quit_called c |}.

Definition mainloop_quit (c : Console) : Console :=
  {| stdout := stdout c; quit_called := true |}.

(** [LogHandler(group, catg, msg)]; [now] is [str(datetime.datetime.now())] *)
Definition LogHandler (now : string) (group catg : Z) (msg : string)
    (c : Console) : Console :=
  let loglines :=
    filter (fun l => (0 < String.length l)%nat) (split_lines msg) in
  match loglines with
  | [] => c
  | first :: rest =>
      let c := print (now +:+ " [LOG] " +:+ first) c in
      foldl (fun c line => print (indent +:+ line) c) c rest
  end.

(** [StatusHandler(major, minor, msg)]; [None] when a conversion raises *)
Definition StatusHandler (codes : StatusCodes) (now : string)
    (major minor : Z) (msg : string) (c : Console) : option Console :=
  match StatusMajor_of_value codes major with
  | None => None
  | Some maj =>
      match StatusMinor_of_value codes minor with
      | None => None
      | Some min =>
          let c :=
            print (now +:+ " [STATUS] (" +:+ str_StatusMajor maj +:+ ", "
                   +:+ str_StatusMinor min +:+ ") " +:+ msg) c in
          let c :=
            if bool_decide (SESSION = maj) && bool_decide (PROC_STOPPED = min)
            then mainloop_quit c else c in
          let c :=
            if bool_decide (CONNECTION = maj) && bool_decide (CONN_AUTH_FAILED = min)
            then mainloop_quit c else c in
          let c :=
            if bool_decide (CONNECTION = maj) && bool_decide (CONN_FAILED = min)
            then mainloop_quit c else c in
          let c :=
            if bool_decide (CONNECTION = maj) && bool_decide (CONN_DISCONNECTED = min)
            then mainloop_quit c else c in
          Some c
      end
  end.

(** *** The main program *)

(** The parsed command line: each option takes one argument
    ([nargs=1]), [None] when the option is absent.  [--config] and
    [--path] sit in a mutually exclusive group, so the parser never hands
    over both. *)
Record Options : Type := {
  log_level : option string;
  config : option string;
  path : option string
}.

(** The calls the program makes on the session manager, the session
    object and the main loop.  A callback argument is recorded as
    [true] for a handler and [false] for [None]. *)
Inductive Action : Type :=
| LookupConfigName (name : string)
| Retrieve (session_path : string)
| LogCallback (handler : bool)
| StatusChangeCallback (handler : bool)
| SetProperty (name value : string)
| MainloopRun.

(** What reaches the process while it sits in [mainloop.run()] *)
Inductive Incoming : Type :=
| LogSignal (now : string) (group catg : Z) (msg : string)
| StatusSignal (now : string) (major minor : Z) (msg : string)
| KeyboardInterrupt.

(** How far the process got.  [UsageError message] is
    [optparser.error(message)]: the argument parser prints its usage and
    the message to standard error and exits with status 2. *)
Inductive Outcome : Type :=
| UsageError (message : string)
| Exit (status : Z)
| InMainloop.

Definition exit_status (o : Outcome) : option Z :=
  match o with
  | UsageError _ => Some 2
  | Exit status => Some status
  | InMainloop => None
  end.

Record Process : Type := {
  actions : list Action;
  console : Console;
  outcome : Outcome
}.

(** [mainloop.run()] inside its [try]: handlers run one signal at a
    time until one of them has called [mainloop.quit()] or the interrupt
    arrives; the flag says whether [run()] came back.  A handler that
    raises leaves the console as it was. *)
Fixpoint mainloop_run (codes : StatusCodes) (signals : list Incoming)
    (c : Console) : Console * bool :=
  match signals with
  | [] => (c, false)
  | KeyboardInterrupt :: _ => (print "Stopping" c, true)
  | LogSignal now group catg msg :: rest =>
      let c := LogHandler now group catg msg c in
      if quit_called c then (c, true) else mainloop_run codes rest c
  | StatusSignal now major minor msg :: rest =>
      let c := default c (StatusHandler codes now major minor msg c) in
      if quit_called c then (c, true) else mainloop_run codes rest c
  end.

(** Everything after the session path is known.  The path and the log
    level are recorded as the strings the parser handed over; their
    conversion to D-Bus types is left to the bus binding. *)
Definition watch (codes : StatusCodes) (opts : Options)
    (session_path : string) (signals : list Incoming)
    (before : list Action) : Process :=
  let acts :=
    before ++ [Retrieve session_path; LogCallback true;
             StatusChangeCallback true] in
  let acts :=
    match log_level opts with
    | Some level => acts ++ [SetProperty "log_verbosity" level]
    | None => acts
    end in
  let '(c, returned) :=
    mainloop_run codes signals {| stdout := []; quit_called := false |} in
  if returned then
    {| actions := acts ++ [MainloopRun; LogCallback false];
       console := c; outcome := Exit 0 |}
  else
    {| actions := acts ++ [MainloopRun]; console := c;
       outcome := InMainloop |}.

(** The [__main__] block from the parsed options on; [lookup] is the
    session manager's [LookupConfigName].  The three cases of the answer
    are [len(search) == 0], [len(search) > 1] and what is left, where
    [search[0]] is the session path. *)
Definition main (codes : StatusCodes) (lookup : string -> list string)
    (opts : Options) (signals : list Incoming) : Process :=
  match config opts with
  | Some name =>
      match lookup name with
      | [] =>
          {| actions := [LookupConfigName name];
             console := {| stdout := []; quit_called := false |};
             outcome :=
               UsageError ("No VPN session found with the "
                           +:+ quoted name +:+ " configuration name") |}
      | _ :: _ :: _ =>
          {| actions := [LookupConfigName name];
             console := {| stdout := []; quit_called := false |};
             outcome :=
               UsageError
                 ("More than one running VPN session was found under the name "
                  +:+ quoted name +:+ ". Use --path instead") |}
      | [first] =>
          watch codes opts first signals [LookupConfigName name]
      end
  | None =>
      match path opts with
      | Some p => watch codes opts p signals []
      | None =>
          {| actions := [];
             console := {| stdout := []; quit_called := false |};
             outcome :=
               UsageError "One of --config or --path must be provided" |}
      end
  end.

End WatchSessionLog.


(** * Vocabulary of the statements *)

(** The [Notify] call every notification method of the watcher makes *)
Definition notification (summary body : string) : ServiceCall :=
  CallNotify "OpenVPN 3 Linux" 0 "network" summary body 0.

(** The [CloseNotification] calls among the calls a service received *)
Definition close_calls (s : Service) : list ServiceCall :=
  filter (λ c, is_close_call c = true) (service_calls s).

(** Every value the two dictionaries of a [Notify] object hold is [None] *)
Definition Notify_stores_None (n : Notify.t) : Prop :=
  Forall (eq None) (PyDict.values (Notify.auth_notif n)) ∧
  Forall (eq None) (PyDict.values (Notify.reconn_notif n)).

Definition is_status (maj : StatusMajor) (min : StatusMinor) (e : Status)
    : Prop :=
  status_major e = maj ∧ status_minor e = min.

(** The list has a CONNECTION/RECONNECTING event with no [closing] event
    anywhere after it *)
Definition reconnect_pending (closing : Status → Prop)
    (events : list Status) : Prop :=
  ∃ before e after,
    events = before ++ e :: after ∧
    is_status CONNECTION CONN_RECONNECTING e ∧
    Forall (λ e', ¬ closing e') after.

(** The four statuses after which the log tailer has nothing left to do *)
Definition terminal_status (maj : StatusMajor) (min : StatusMinor) : Prop :=
  (maj = SESSION ∧ min = PROC_STOPPED) ∨
  (maj = CONNECTION ∧ min = CONN_AUTH_FAILED) ∨
  (maj = CONNECTION ∧ min = CONN_FAILED) ∨
  (maj = CONNECTION ∧ min = CONN_DISCONNECTED).

(** What a notification of the auth category, respectively the reconnect
    category, leaves behind in that case *)
Definition auth_notified (path summary body : string) (n : Notify.t) : Notify.t :=
  {| Notify.service :=
       {| service_calls :=
            service_calls (Notify.service n) ++ [notification summary body];
          service_next_id := service_next_id (Notify.service n) + 1 |};
     Notify.auth_notif := PyDict.set path None (Notify.auth_notif n);
     Notify.reconn_notif := Notify.reconn_notif n |}.

Definition reconn_notified (path summary body : string) (n : Notify.t) : Notify.t :=
  {| Notify.service :=
       {| service_calls :=
            service_calls (Notify.service n) ++ [notification summary body];
          service_next_id := service_next_id (Notify.service n) + 1 |};
     Notify.auth_notif := Notify.auth_notif n;
     Notify.reconn_notif := PyDict.set path None (Notify.reconn_notif n) |}.

(** The claim that CONNECTED and DISCONNECTED both end a reconnect, and
    the events that end one in the code *)
Definition ends_reconnect_claimed (e : Status) : Prop :=
  is_status CONNECTION CONN_CONNECTED e ∨ is_status CONNECTION CONN_DISCONNECTED e.

Definition ends_reconnect (e : Status) : Prop :=
  is_status CONNECTION CONN_CONNECTED e.

(** A session, a service and a watcher to evaluate the code on *)
Definition example_path : string := "/net/openvpn/v3/sessions/s1".

Definition example_sessmgr : SessionManager.t :=
  {| SessionManager.config_name_of := λ _, "work-vpn" |}.

Definition example_service : Service :=
  {| service_calls := []; service_next_id := 1 |}.

Definition example_watcher : SessionWatcher.t :=
  SessionWatcher.init 0 (SessionManager.Retrieve example_path example_sessmgr).

Definition example_status (maj : StatusMajor) (min : StatusMinor) : Status :=
  {| status_major := maj; status_minor := min; status_message := "" |}.

(** What holds of the manager watcher whatever happened to it: no path
    is a key of the registry twice, and the watcher registered for a path
    is in the store, is the watcher of that path, and has its handler
    attached to the status-change signal of that session. *)
Definition registry_ok (m : SessionManagerWatcher.t) : Prop :=
  NoDup (PyDict.keys (SessionManagerWatcher.sessions m)) ∧
  ∀ p a, PyDict.get p (SessionManagerWatcher.sessions m) = Some a →
    ∃ w, SessionManagerWatcher.objects m !! a = Some w ∧
         SessionWatcher.path w = p ∧
         Session.path (SessionWatcher.session w) = p ∧
         Session.status_callback (SessionWatcher.session w) = Some a.

(** The frame C10 states for [Register(path)]: nothing but the registry
    entry of [path] differs between [m] and [m'] *)
Definition only_registry_entry_changed (path : string)
    (m m' : SessionManagerWatcher.t) : Prop :=
  SessionManagerWatcher.notify m' = SessionManagerWatcher.notify m ∧
  SessionManagerWatcher.sessmgr m' = SessionManagerWatcher.sessmgr m ∧
  (∀ p, p ≠ path →
     PyDict.get p (SessionManagerWatcher.sessions m') =
     PyDict.get p (SessionManagerWatcher.sessions m)) ∧
  (∀ a w, SessionManagerWatcher.objects m !! a = Some w →
     SessionManagerWatcher.objects m' !! a = Some w) ∧
  (∀ p, SessionManagerWatcher.receivers p m' =
        SessionManagerWatcher.receivers p m).

(** The manager watcher after [Register(example_path)] on a new one *)
Definition example_registered : SessionManagerWatcher.t :=
  SessionManagerWatcher.Register example_path
    (SessionManagerWatcher.init example_service example_sessmgr).

(** A value table to evaluate the handlers on *)
Definition example_codes : StatusCodes :=
  {| StatusMajor_of_value := λ v,
       if v =? 2 then Some CONNECTION
       else if v =? 3 then Some SESSION else None;
     StatusMinor_of_value := λ v,
       if v =? 7 then Some CONN_CONNECTED
       else if v =? 9 then Some CONN_DISCONNECTED
       else if v =? 10 then Some CONN_FAILED
       else if v =? 11 then Some CONN_AUTH_FAILED
       else if v =? 12 then Some CONN_RECONNECTING
       else if v =? 22 then Some SESS_AUTH_URL
       else if v =? 28 then Some PROC_STOPPED else None |}.

(** The sink holds only [None] and has got no close call through to the
    service since it was [n0] *)
Definition quiet_since (n0 n : Notify.t) : Prop :=
  Notify_stores_None n ∧
  close_calls (Notify.service n) = close_calls (Notify.service n0).

(** What the log handler prints for the given pieces of a message: the
    first one after the timestamp, the others under it *)
Definition log_lines (now : string) (pieces : list string) : list string :=
  match pieces with
  | [] => []
  | first :: rest =>
      (now +:+ " [LOG] " +:+ first)
      :: map (λ line, WatchSessionLog.indent +:+ line) rest
  end.

(** A message of [k] newline characters and nothing else *)
Definition newlines (k : nat) : string :=
  string_of_list_ascii (repeat WatchSessionLog.newline k).

(** The line the status handler prints *)
Definition status_line (now : string) (maj : StatusMajor) (min : StatusMinor)
    (msg : string) : string :=
  now +:+ " [STATUS] (" +:+ str_StatusMajor maj +:+ ", "
  +:+ str_StatusMinor min +:+ ") " +:+ msg.

(** The calls of the log tailer that retrieve a session object or set up
    a subscription *)
Definition touches_session (a : WatchSessionLog.Action) : Prop :=
  match a with
  | WatchSessionLog.Retrieve _
  | WatchSessionLog.LogCallback _
  | WatchSessionLog.StatusChangeCallback _ => True
  | _ => False
  end.

(** Option sets to evaluate the log tailer on *)
Definition example_options : WatchSessionLog.Options :=
  {| WatchSessionLog.log_level := None;
     WatchSessionLog.config := Some "foo";
     WatchSessionLog.path := None |}.

(** The service [s'] has received what [s] had received and, after that,
    nothing but [Notify] calls of the kind the watcher makes *)
Definition extended_by_notifications (s s' : Service) : Prop :=
  ∃ new,
    service_calls s' = service_calls s ++ new ∧
    Forall (λ c, ∃ summary body, c = notification summary body) new.

(** Every session path the sink [n] has an entry for, it still has in [n'] *)
Definition entries_kept (n n' : Notify.t) : Prop :=
  PyDict.keys (Notify.auth_notif n) ⊆ PyDict.keys (Notify.auth_notif n') ∧
  PyDict.keys (Notify.reconn_notif n) ⊆ PyDict.keys (Notify.reconn_notif n').

(** The statuses [__evaluate_status] acts on *)
Definition handled_status (maj : StatusMajor) (min : StatusMinor) : Prop :=
  (maj = SESSION ∧ min = SESS_AUTH_URL) ∨
  (maj = CONNECTION ∧ min = CONN_CONNECTED) ∨
  (maj = CONNECTION ∧ min = CONN_RECONNECTING) ∨
  (maj = CONNECTION ∧ min = CONN_DISCONNECTED).

(** Every attached handler is the handler of the watcher object it is
    stored with: the callback of the watcher at address [a] is [a]'s *)
Definition handlers_own (m : SessionManagerWatcher.t) : Prop :=
  ∀ a w h, SessionManagerWatcher.objects m !! a = Some w →
    Session.status_callback (SessionWatcher.session w) = Some h → h = a.

(** The signals that make the log tailer leave its main loop: the
    interrupt, and a status signal whose codes are those of one of the
    four terminal statuses *)
Definition stops (codes : StatusCodes) (sig : WatchSessionLog.Incoming)
    : Prop :=
  match sig with
  | WatchSessionLog.KeyboardInterrupt => True
  | WatchSessionLog.StatusSignal _ major minor _ =>
      ∃ maj min,
        StatusMajor_of_value codes major = Some maj ∧
        StatusMinor_of_value codes minor = Some min ∧
        terminal_status maj min
  | WatchSessionLog.LogSignal _ _ _ _ => False
  end.

(** * Properties *)

(** ** Dictionaries *)

Section PyDictFacts.
Context {V : Type}.
Implicit Types (k : string) (v : V) (d : PyDict.t V).

Lemma PyDict_get_set_eq k v d : PyDict.get k (PyDict.set k v d) = Some v.
Proof.
  induction d as [|[k' v'] d IH]; simpl.
  - by rewrite String.eqb_refl.
  - destruct (String.eqb k k') eqn:E; simpl; rewrite E; [done | apply IH].
Qed.

Lemma PyDict_get_set_ne k k' v d :
  k ≠ k' → PyDict.get k' (PyDict.set k v d) = PyDict.get k' d.
Proof.
  intros Hne. induction d as [|[k0 v0] d IH]; simpl.
  - destruct (String.eqb k' k) eqn:E; [|done].
    apply String.eqb_eq in E. congruence.
  - destruct (String.eqb k k0) eqn:E; simpl.
    + apply String.eqb_eq in E. subst k0.
      destruct (String.eqb k' k) eqn:E'; [|done].
      apply String.eqb_eq in E'. congruence.
    + by rewrite IH.
Qed.

Lemma PyDict_get_None_keys k d :
  PyDict.get k d = None ↔ k ∉ PyDict.keys d.
Proof.
  induction d as [|[k' v'] d IH]; simpl.
  - split; [intros _; apply not_elem_of_nil | done].
  - rewrite not_elem_of_cons. destruct (String.eqb k k') eqn:E.
    + apply String.eqb_eq in E. split; [done | intros [? _]; done].
    + apply String.eqb_neq in E. rewrite IH. tauto.
Qed.

Lemma PyDict_contains_keys k d :
  PyDict.contains k d = true ↔ k ∈ PyDict.keys d.
Proof.
  unfold PyDict.contains. destruct (PyDict.get k d) eqn:E.
  - split; [intros _ | done].
    destruct (decide (k ∈ PyDict.keys d)) as [|Hn]; [done|].
    apply PyDict_get_None_keys in Hn. congruence.
  - apply PyDict_get_None_keys in E. split; [done | intros; done].
Qed.

(** Storing under a key that is present keeps the key list as it is;
    a new key goes to the end. *)
Lemma PyDict_keys_set k v d :
  PyDict.keys (PyDict.set k v d) =
  if PyDict.contains k d then PyDict.keys d else PyDict.keys d ++ [k].
Proof.
  unfold PyDict.contains.
  induction d as [|[k' v'] d IH]; simpl; [done|].
  destruct (String.eqb k k') eqn:E; simpl; [done|].
  rewrite IH. by destruct (PyDict.get k d).
Qed.

Lemma PyDict_NoDup_set k v d :
  NoDup (PyDict.keys d) → NoDup (PyDict.keys (PyDict.set k v d)).
Proof.
  intros Hnd. rewrite PyDict_keys_set.
  destruct (PyDict.contains k d) eqn:E; [done|].
  apply NoDup_app. split_and!; [done | | apply NoDup_singleton].
  intros x Hx Hx'. apply list_elem_of_singleton in Hx'. subst x.
  apply PyDict_contains_keys in Hx. congruence.
Qed.

Lemma PyDict_keys_pop_subseteq k d :
  PyDict.keys (PyDict.pop k d) ⊆ PyDict.keys d.
Proof.
  induction d as [|[k' v'] d IH]; simpl; [done|].
  destruct (String.eqb k k'); simpl.
  - by apply list_subseteq_cons.
  - intros x. rewrite !elem_of_cons. intros [->|Hx]; [by left|].
    right. by apply IH.
Qed.

Lemma PyDict_NoDup_pop k d :
  NoDup (PyDict.keys d) → NoDup (PyDict.keys (PyDict.pop k d)).
Proof.
  induction d as [|[k' v'] d IH]; simpl; [done|].
  intros Hnd. apply NoDup_cons in Hnd as [Hk' Hnd].
  destruct (String.eqb k k'); simpl; [done|].
  apply NoDup_cons. split; [|by apply IH].
  intros Hin. apply Hk'. by apply (PyDict_keys_pop_subseteq k).
Qed.

Lemma PyDict_get_pop_eq k d :
  NoDup (PyDict.keys d) → PyDict.get k (PyDict.pop k d) = None.
Proof.
  induction d as [|[k' v'] d IH]; simpl; [done|].
  intros Hnd. apply NoDup_cons in Hnd as [Hk' Hnd].
  destruct (String.eqb k k') eqn:E; simpl.
  - apply String.eqb_eq in E. subst k'. by apply PyDict_get_None_keys.
  - rewrite E. by apply IH.
Qed.

Lemma PyDict_get_pop_ne k k' d :
  k ≠ k' → PyDict.get k' (PyDict.pop k d) = PyDict.get k' d.
Proof.
  intros Hne. induction d as [|[k0 v0] d IH]; simpl; [done|].
  destruct (String.eqb k k0) eqn:E; simpl.
  - apply String.eqb_eq in E. subst k0.
    destruct (String.eqb k' k) eqn:E'; [|done].
    apply String.eqb_eq in E'. congruence.
  - by rewrite IH.
Qed.

Lemma PyDict_values_set (P : V → Prop) k v d :
  P v → Forall P (PyDict.values d) →
  Forall P (PyDict.values (PyDict.set k v d)).
Proof.
  intros Hv. induction d as [|[k' v'] d IH]; simpl.
  - intros _. by apply Forall_cons.
  - intros Hd. apply Forall_cons in Hd as [Hv' Hd].
    destruct (String.eqb k k'); simpl; apply Forall_cons; auto.
Qed.

Lemma PyDict_get_values (P : V → Prop) k v d :
  Forall P (PyDict.values d) → PyDict.get k d = Some v → P v.
Proof.
  induction d as [|[k' v'] d IH]; simpl; [done|].
  intros Hd. apply Forall_cons in Hd as [Hv' Hd].
  destruct (String.eqb k k'); [intros [= <-]; done | by apply IH].
Qed.

End PyDictFacts.

(** ** The notification sink *)

Section NotifyFacts.
Implicit Types (n : Notify.t) (path name : string).

Lemma Notify_init_stores_None s : Notify_stores_None (Notify.init s).
Proof. split; apply Forall_nil_2. Qed.

(** With nothing but [None] stored, closing reaches [__close_notify]
    with [None] at best, which returns at once. *)
Lemma Notify_CloseNotification_None group path n :
  Notify_stores_None n → Notify.CloseNotification group path n = n.
Proof.
  intros [Ha Hr]. unfold Notify.CloseNotification.
  destruct (String.eqb "auth" group).
  - destruct (PyDict.get path (Notify.auth_notif n)) as [nid|] eqn:E; [|done].
    by rewrite <- (PyDict_get_values _ _ _ _ Ha E).
  - destruct (String.eqb "reconnect" group); [|done].
    destruct (PyDict.get path (Notify.reconn_notif n)) as [nid|] eqn:E; [|done].
    by rewrite <- (PyDict_get_values _ _ _ _ Hr E).
Qed.

Lemma Notify_guarded_close_None (b : bool) group path n :
  Notify_stores_None n →
  (if b then Notify.CloseNotification group path n else n) = n.
Proof. intros H. destruct b; [by apply Notify_CloseNotification_None | done]. Qed.

Lemma Notify_WebAuthenticate_None path url n :
  Notify_stores_None n →
  Notify.WebAuthenticate path url n =
  auth_notified path "OpenVPN - Authentication Required" ("Visit " +:+ url) n.
Proof.
  intros H. unfold Notify.WebAuthenticate.
  by rewrite Notify_guarded_close_None.
Qed.

Lemma Notify_Connected_None path name n :
  Notify_stores_None n →
  Notify.Connected path name n =
  auth_notified path "OpenVPN - Authentication Successful"
    ("OpenVPN session " +:+ quoted name +:+ " connected successfully") n.
Proof.
  intros H. unfold Notify.Connected.
  by rewrite Notify_guarded_close_None.
Qed.

Lemma Notify_Reconnecting_None path name n :
  Notify_stores_None n →
  Notify.Reconnecting path name n =
  reconn_notified path "OpenVPN session reconnecting"
    ("Session " +:+ quoted name +:+ " is reconnecting") n.
Proof.
  intros H. unfold Notify.Reconnecting.
  by rewrite Notify_guarded_close_None.
Qed.

Lemma Notify_Reconnected_None path name n :
  Notify_stores_None n →
  Notify.Reconnected path name n =
  reconn_notified path "OpenVPN session reconnected"
    ("Session " +:+ quoted name +:+ " reconnected successfully") n.
Proof.
  intros H. unfold Notify.Reconnected.
  by rewrite Notify_guarded_close_None.
Qed.

Lemma Notify_Disconnected_None path name n :
  Notify_stores_None n →
  Notify.Disconnected path name n =
  reconn_notified path "OpenVPN session disconnected"
    ("Session " +:+ quoted name +:+ " was disconnected") n.
Proof.
  intros H. unfold Notify.Disconnected. cbv zeta.
  rewrite (Notify_guarded_close_None _ "auth" path n H).
  by rewrite (Notify_guarded_close_None _ "reconnect" path n H).
Qed.

Lemma auth_notified_stores_None path summary body n :
  Notify_stores_None n → Notify_stores_None (auth_notified path summary body n).
Proof.
  intros [Ha Hr]. split; simpl; [|done]. by apply PyDict_values_set.
Qed.

Lemma reconn_notified_stores_None path summary body n :
  Notify_stores_None n → Notify_stores_None (reconn_notified path summary body n).
Proof.
  intros [Ha Hr]. split; simpl; [done|]. by apply PyDict_values_set.
Qed.

Lemma auth_notified_close_calls path summary body n :
  close_calls (Notify.service (auth_notified path summary body n)) =
  close_calls (Notify.service n).
Proof.
  unfold close_calls. simpl. rewrite filter_app. simpl.
  rewrite filter_cons_False; [|by simpl]. rewrite filter_nil. apply app_nil_r.
Qed.

Lemma reconn_notified_close_calls path summary body n :
  close_calls (Notify.service (reconn_notified path summary body n)) =
  close_calls (Notify.service n).
Proof.
  unfold close_calls. simpl. rewrite filter_app. simpl.
  rewrite filter_cons_False; [|by simpl]. rewrite filter_nil. apply app_nil_r.
Qed.

End NotifyFacts.

(** ** The session watcher *)

Section SessionWatcherFacts.
Implicit Types (w : SessionWatcher.t) (n : Notify.t) (e : Status).

(** The rows of the transition table, read off the code *)
Lemma evaluate_AUTH_URL msg w n :
  SessionWatcher.__evaluate_status SESSION SESS_AUTH_URL msg w n =
  (w, Notify.WebAuthenticate (SessionWatcher.path w) msg n).
Proof. reflexivity. Qed.

Lemma evaluate_CONNECTED msg w n :
  SessionWatcher.__evaluate_status CONNECTION CONN_CONNECTED msg w n =
  if SessionWatcher.reconnecting w
  then (SessionWatcher.set_reconnecting false w,
        Notify.Reconnected (SessionWatcher.path w) (SessionWatcher.cfgname w) n)
  else (w, Notify.Connected (SessionWatcher.path w) (SessionWatcher.cfgname w) n).
Proof. unfold SessionWatcher.__evaluate_status. simpl. by destruct (SessionWatcher.reconnecting w). Qed.

Lemma evaluate_RECONNECTING msg w n :
  SessionWatcher.__evaluate_status CONNECTION CONN_RECONNECTING msg w n =
  (SessionWatcher.set_reconnecting true w,
   Notify.Reconnecting (SessionWatcher.path w) (SessionWatcher.cfgname w) n).
Proof. reflexivity. Qed.

Lemma evaluate_DISCONNECTED msg w n :
  SessionWatcher.__evaluate_status CONNECTION CONN_DISCONNECTED msg w n =
  (w, Notify.Disconnected (SessionWatcher.path w) (SessionWatcher.cfgname w) n).
Proof. reflexivity. Qed.

(** A status event touches the reconnecting flag only. *)
Lemma evaluate_status_fields maj min msg w n :
  let w' := (SessionWatcher.__evaluate_status maj min msg w n).1 in
  SessionWatcher.session w' = SessionWatcher.session w ∧
  SessionWatcher.path w' = SessionWatcher.path w ∧
  SessionWatcher.cfgname w' = SessionWatcher.cfgname w.
Proof.
  unfold SessionWatcher.__evaluate_status.
  repeat case_decide; try destruct (negb _); simpl; done.
Qed.

(** The flag after one event: set by RECONNECTING, cleared by CONNECTED,
    kept by everything else. *)
Lemma evaluate_status_reconnecting maj min msg w n :
  SessionWatcher.reconnecting
    (SessionWatcher.__evaluate_status maj min msg w n).1 =
  if bool_decide (maj = CONNECTION ∧ min = CONN_RECONNECTING) then true
  else if bool_decide (maj = CONNECTION ∧ min = CONN_CONNECTED) then false
  else SessionWatcher.reconnecting w.
Proof.
  unfold SessionWatcher.__evaluate_status.
  repeat case_decide; subst; simpl;
    repeat case_bool_decide; try done; try (exfalso; naive_solver).
  all: destruct (SessionWatcher.reconnecting w) eqn:E; simpl; try done;
    exfalso; naive_solver.
Qed.

(** With only [None] stored, an event adds no close call and stores
    only [None] again. *)
Lemma evaluate_status_stores_None maj min msg w n :
  Notify_stores_None n →
  let n' := (SessionWatcher.__evaluate_status maj min msg w n).2 in
  Notify_stores_None n' ∧
  close_calls (Notify.service n') = close_calls (Notify.service n).
Proof.
  intros H. unfold SessionWatcher.__evaluate_status.
  repeat case_decide; try destruct (negb _); cbn [fst snd]; try done.
  - rewrite Notify_WebAuthenticate_None by done.
    split; [by apply auth_notified_stores_None | apply auth_notified_close_calls].
  - rewrite Notify_Connected_None by done.
    split; [by apply auth_notified_stores_None | apply auth_notified_close_calls].
  - rewrite Notify_Reconnected_None by done.
    split; [by apply reconn_notified_stores_None | apply reconn_notified_close_calls].
  - rewrite Notify_Reconnecting_None by done.
    split; [by apply reconn_notified_stores_None | apply reconn_notified_close_calls].
  - rewrite Notify_Disconnected_None by done.
    split; [by apply reconn_notified_stores_None | apply reconn_notified_close_calls].
Qed.

Lemma deliver_cons e events w n :
  SessionWatcher.deliver (e :: events) w n =
  SessionWatcher.deliver events
    (SessionWatcher.__evaluate_status (status_major e) (status_minor e)
       (status_message e) w n).1
    (SessionWatcher.__evaluate_status (status_major e) (status_minor e)
       (status_message e) w n).2.
Proof.
  simpl.
  by destruct (SessionWatcher.__evaluate_status _ _ _ w n).
Qed.

Lemma reconnect_pending_nil closing : ¬ reconnect_pending closing [].
Proof. intros (before & e & after & Heq & _). by destruct before. Qed.

Lemma reconnect_pending_cons closing e events :
  reconnect_pending closing (e :: events) ↔
  reconnect_pending closing events ∨
  (is_status CONNECTION CONN_RECONNECTING e ∧
   Forall (λ e', ¬ closing e') events).
Proof.
  split.
  - intros (before & e0 & after & Heq & He0 & Hafter).
    destruct before as [|b before]; simpl in Heq; injection Heq as -> ->.
    + by right.
    + left. by exists before, e0, after.
  - intros [(before & e0 & after & -> & He0 & Hafter) | [He Hall]].
    + by exists (e :: before), e0, after.
    + by exists [], e, events.
Qed.

(** The flag after a list of events, from any starting value *)
Lemma deliver_reconnecting events : ∀ w n,
  SessionWatcher.reconnecting (SessionWatcher.deliver events w n).1 = true ↔
  reconnect_pending ends_reconnect events ∨
  (SessionWatcher.reconnecting w = true ∧
   Forall (λ e, ¬ ends_reconnect e) events).
Proof.
  induction events as [|e events IH]; intros w n.
  - simpl. split.
    + intros H. right. split; [done | apply Forall_nil_2].
    + intros [H | [H _]]; [by apply reconnect_pending_nil in H | done].
  - rewrite deliver_cons, IH, evaluate_status_reconnecting.
    rewrite reconnect_pending_cons, Forall_cons.
    unfold ends_reconnect, is_status. clear IH.
    repeat case_bool_decide; intuition congruence.
Qed.

Lemma Stop_detaches w n :
  Session.status_callback (SessionWatcher.session (SessionWatcher.Stop w n).1)
  = None.
Proof. done. Qed.

(** Without an auth entry for the session, [Stop()] leaves the sink and
    the service alone. *)
Lemma Stop_without_notification w n :
  PyDict.contains (SessionWatcher.path w) (Notify.auth_notif n) = false →
  (SessionWatcher.Stop w n).2 = n.
Proof.
  unfold PyDict.contains, SessionWatcher.Stop, Notify.CloseNotification.
  simpl. by destruct (PyDict.get _ _).
Qed.

Lemma Stop_stores_None w n :
  Notify_stores_None n → (SessionWatcher.Stop w n).2 = n.
Proof. intros H. simpl. by apply Notify_CloseNotification_None. Qed.

End SessionWatcherFacts.

(** C1, as stated, fails: after RECONNECTING and then DISCONNECTED the
    flag is still true, although a DISCONNECTED event follows the
    RECONNECTING one. *)
Lemma reconnecting_survives_disconnected :
  ¬ (SessionWatcher.reconnecting
       (SessionWatcher.deliver
          [example_status CONNECTION CONN_RECONNECTING;
           example_status CONNECTION CONN_DISCONNECTED]
          example_watcher (Notify.init example_service)).1 = true ↔
     reconnect_pending ends_reconnect_claimed
       [example_status CONNECTION CONN_RECONNECTING;
        example_status CONNECTION CONN_DISCONNECTED]).
Proof.
  intros [Hflag _].
  destruct (Hflag eq_refl) as (before & e & after & Heq & [_ He] & Hafter).
  destruct before as [|b1 [|b2 before]]; simpl in Heq.
  - injection Heq as <- <-. apply Forall_cons in Hafter as [Hd _].
    apply Hd. right. done.
  - injection Heq as _ <- _. done.
  - injection Heq as _ _ Heq. by destruct before.
Qed.

(** C1, amended: for a watcher whose reconnecting flag is false, after any
    finite list of status events the flag is true exactly when the list
    has a CONNECTION/RECONNECTING event with no CONNECTION/CONNECTED event
    after it.  (A DISCONNECTED event leaves the flag as it is.) *)
Theorem reconnecting_iff_pending (events : list Status)
    (w : SessionWatcher.t) (n : Notify.t) :
  SessionWatcher.reconnecting w = false →
  (SessionWatcher.reconnecting (SessionWatcher.deliver events w n).1 = true ↔
   reconnect_pending ends_reconnect events).
Proof.
  intros Hw. rewrite deliver_reconnecting, Hw. intuition congruence.
Qed.

Lemma reconnecting_iff_pending_witness :
  SessionWatcher.reconnecting example_watcher = false ∧
  (SessionWatcher.reconnecting
     (SessionWatcher.deliver
        [example_status CONNECTION CONN_RECONNECTING;
         example_status CONNECTION CONN_DISCONNECTED]
        example_watcher (Notify.init example_service)).1 = true ↔
   reconnect_pending ends_reconnect
     [example_status CONNECTION CONN_RECONNECTING;
      example_status CONNECTION CONN_DISCONNECTED]).
Proof.
  split; [reflexivity|].
  apply (reconnecting_iff_pending
           [example_status CONNECTION CONN_RECONNECTING;
            example_status CONNECTION CONN_DISCONNECTED]
           example_watcher (Notify.init example_service)).
  reflexivity.
Defined.

(** Unfolds the record updates of the notification sink without touching
    the strings *)
Ltac notify_fields :=
  unfold reconn_notified, auth_notified, Session.GetPath,
    Session.GetProperty_config_name;
  cbn [Notify.service Notify.auth_notif Notify.reconn_notif Notify.init
       service_calls service_next_id PyDict.set PyDict.get PyDict.keys
       PyDict.empty map fst snd];
  repeat (rewrite String.eqb_refl;
          cbn [PyDict.set PyDict.get PyDict.keys map fst snd]).

(** C2: the code run on a second notification of one category for one
    session.  [Reconnecting] is called twice on a new [Notify] object; the
    service answers the first call with the id [service_next_id s].  The
    value stored under the session is [None], not that id, and the
    service receives the two [Notify] calls and no [CloseNotification]
    between them. *)
Theorem second_notification_closes_nothing (path name : string) (s : Service) :
  PyDict.get path
    (Notify.reconn_notif (Notify.Reconnecting path name (Notify.init s)))
  = Some None ∧
  (Notify.__notify "OpenVPN session reconnecting"
     ("Session " +:+ quoted name +:+ " is reconnecting")
     (Notify.init s)).1 = None ∧
  service_calls
    (Notify.service
       (Notify.Reconnecting path name
          (Notify.Reconnecting path name (Notify.init s))))
  = service_calls s ++
    [notification "OpenVPN session reconnecting"
       ("Session " +:+ quoted name +:+ " is reconnecting");
     notification "OpenVPN session reconnecting"
       ("Session " +:+ quoted name +:+ " is reconnecting")] ∧
  PyDict.keys
    (Notify.reconn_notif
       (Notify.Reconnecting path name
          (Notify.Reconnecting path name (Notify.init s))))
  = [path].
Proof.
  pose proof (Notify_init_stores_None s) as H0.
  rewrite (Notify_Reconnecting_None path name (Notify.init s) H0).
  pose proof (reconn_notified_stores_None path "OpenVPN session reconnecting"
                ("Session " +:+ quoted name +:+ " is reconnecting")
                _ H0) as H1.
  rewrite (Notify_Reconnecting_None path name _ H1).
  split_and!; notify_fields.
  - done.
  - done.
  - by rewrite <- app_assoc.
  - done.
Qed.

(** C3: the code run on [CONNECTION/RECONNECTING, CONNECTION/CONNECTED]
    for a newly constructed watcher and a new [Notify] object.  The
    service receives the "reconnecting" notification and then the
    "reconnected" one (not "connected"), the flag ends false; no
    [CloseNotification] call is made in between, the entry stored for the
    session being [None]. *)
Theorem reconnect_scenario_calls (addr : nat) (session : Session.t)
    (msg1 msg2 : string) (s : Service) :
  let result :=
    SessionWatcher.deliver
      [ {| status_major := CONNECTION; status_minor := CONN_RECONNECTING;
           status_message := msg1 |};
        {| status_major := CONNECTION; status_minor := CONN_CONNECTED;
           status_message := msg2 |} ]
      (SessionWatcher.init addr session) (Notify.init s) in
  service_calls (Notify.service result.2)
  = service_calls s ++
    [notification "OpenVPN session reconnecting"
       ("Session " +:+ quoted (Session.config_name session)
        +:+ " is reconnecting");
     notification "OpenVPN session reconnected"
       ("Session " +:+ quoted (Session.config_name session)
        +:+ " reconnected successfully")] ∧
  SessionWatcher.reconnecting result.1 = false ∧
  PyDict.get (Session.path session) (Notify.reconn_notif result.2) = Some None.
Proof.
  intros result. subst result.
  pose proof (Notify_init_stores_None s) as H0.
  rewrite !deliver_cons. cbn [status_major status_minor status_message].
  rewrite evaluate_RECONNECTING. cbn [fst snd].
  rewrite evaluate_CONNECTED. cbn [SessionWatcher.deliver fst snd].
  cbn [SessionWatcher.init SessionWatcher.path SessionWatcher.cfgname
       SessionWatcher.reconnecting SessionWatcher.set_reconnecting
       Session.GetPath Session.GetProperty_config_name fst snd].
  rewrite (Notify_Reconnecting_None _ _ (Notify.init s) H0).
  rewrite Notify_Reconnected_None by by apply reconn_notified_stores_None.
  split_and!; notify_fields.
  - by rewrite <- app_assoc.
  - done.
  - done.
Qed.

(** C7: the code run on [Stop()] with an auth notification outstanding.
    A newly constructed watcher gets SESSION/AUTH_URL and is then stopped:
    the service has received the "authentication required" notification
    and nothing else, in particular no [CloseNotification]; the entry of
    the session is still in the auth dictionary, holding [None]; the
    status-change handler is detached. *)
Theorem Stop_closes_nothing (addr : nat) (session : Session.t)
    (url : string) (s : Service) :
  let notified :=
    SessionWatcher.__evaluate_status SESSION SESS_AUTH_URL url
      (SessionWatcher.init addr session) (Notify.init s) in
  let stopped := SessionWatcher.Stop notified.1 notified.2 in
  service_calls (Notify.service stopped.2)
  = service_calls s ++
    [notification "OpenVPN - Authentication Required" ("Visit " +:+ url)] ∧
  PyDict.get (Session.path session) (Notify.auth_notif stopped.2) = Some None ∧
  Session.status_callback (SessionWatcher.session stopped.1) = None.
Proof.
  intros notified stopped. subst notified stopped.
  pose proof (Notify_init_stores_None s) as H0.
  rewrite evaluate_AUTH_URL.
  cbn [fst snd SessionWatcher.init SessionWatcher.path Session.GetPath].
  rewrite (Notify_WebAuthenticate_None _ _ (Notify.init s) H0).
  rewrite Stop_stores_None by by apply auth_notified_stores_None.
  split_and!; notify_fields; done.
Qed.

(** ** The session manager watcher *)

Section SessionManagerWatcherFacts.
Import SessionManagerWatcher.
Implicit Types (m : SessionManagerWatcher.t) (path : string).

Lemma registry_ok_init s mgr : registry_ok (init s mgr).
Proof. split; [apply NoDup_nil_2 | done]. Qed.

Lemma Register_sessions_get path m :
  PyDict.get path (sessions (Register path m)) = Some (length (objects m)).
Proof. apply PyDict_get_set_eq. Qed.

Lemma Register_sessions_other path p m :
  p ≠ path →
  PyDict.get p (sessions (Register path m)) = PyDict.get p (sessions m).
Proof. intros H. by apply PyDict_get_set_ne. Qed.

Lemma Register_objects_old path m a w :
  objects m !! a = Some w → objects (Register path m) !! a = Some w.
Proof. intros H. simpl. by apply lookup_app_l_Some. Qed.

Lemma Register_objects_new path m :
  objects (Register path m) !! length (objects m) =
  Some (SessionWatcher.init (length (objects m))
          (SessionManager.Retrieve path (sessmgr m))).
Proof. simpl. by rewrite lookup_app_r, Nat.sub_diag by lia. Qed.

Lemma registry_ok_Register path m :
  registry_ok m → registry_ok (Register path m).
Proof.
  intros [Hnd Hent]. split.
  - by apply PyDict_NoDup_set.
  - intros p a Hget. destruct (decide (p = path)) as [->|Hne].
    + rewrite Register_sessions_get in Hget. injection Hget as <-.
      eexists. split; [apply Register_objects_new | done].
    + rewrite Register_sessions_other in Hget by done.
      destruct (Hent p a Hget) as (w & Hw & ?).
      exists w. split; [by apply Register_objects_old | done].
Qed.

(** Calling a method that leaves the watcher's session and path alone *)
Lemma registry_ok_call addr method m :
  (∀ w n, SessionWatcher.session (method w n).1 = SessionWatcher.session w ∧
          SessionWatcher.path (method w n).1 = SessionWatcher.path w) →
  registry_ok m → registry_ok (call addr method m).
Proof.
  intros Hmeth [Hnd Hent]. unfold call.
  destruct (objects m !! addr) as [w|] eqn:Hw; [|done].
  destruct (method w (notify m)) as [w' n'] eqn:Hm.
  split; [done|]. cbn [sessions objects]. intros p a Hget.
  destruct (Hent p a Hget) as (w0 & Hw0 & Hp & Hsp & Hcb).
  destruct (decide (a = addr)) as [->|Hne].
  - exists w'. split.
    + apply list_lookup_insert_eq. by eapply lookup_lt_Some.
    + assert (w0 = w) as -> by congruence.
      destruct (Hmeth w (notify m)) as [Hs Hpath].
      rewrite Hm in Hs, Hpath. simpl in Hs, Hpath.
      by rewrite Hs, Hpath.
  - exists w0. split; [|done]. by rewrite list_lookup_insert_ne.
Qed.

Lemma registry_ok_CheckStatus path status m :
  registry_ok m → registry_ok (CheckStatus path status m).
Proof.
  intros H. unfold CheckStatus.
  destruct (PyDict.get path (sessions m)) as [addr|]; [|done].
  apply registry_ok_call; [|done].
  intros w n. unfold SessionWatcher.CheckStatus.
  pose proof (evaluate_status_fields (status_major status)
                (status_minor status) (status_message status) w n) as Hf.
  simpl in Hf. tauto.
Qed.

Lemma registry_ok_invoke_handler codes major minor msg m addr :
  registry_ok m → registry_ok (invoke_handler codes major minor msg m addr).
Proof.
  intros H. unfold invoke_handler, SessionWatcher.__status_chg_handler.
  destruct (StatusMajor_of_value codes major) as [maj|] eqn:Hmaj;
    [|by destruct (objects m !! addr)].
  destruct (StatusMinor_of_value codes minor) as [min|] eqn:Hmin;
    [|by destruct (objects m !! addr)].
  change (registry_ok
            (call addr (SessionWatcher.__evaluate_status maj min msg) m)).
  apply registry_ok_call; [|done].
  intros w n.
  pose proof (evaluate_status_fields maj min msg w n) as Hf.
  simpl in Hf. tauto.
Qed.

Lemma registry_ok_foldl_invoke codes major minor msg addrs : ∀ m,
  registry_ok m →
  registry_ok (foldl (invoke_handler codes major minor msg) m addrs).
Proof.
  induction addrs as [|a addrs IH]; intros m H; simpl; [done|].
  by apply IH, registry_ok_invoke_handler.
Qed.

(** A destroyed session: the watcher is stopped, then the entry goes. *)
Lemma registry_ok_destroy path addr m :
  registry_ok m →
  PyDict.get path (sessions m) = Some addr →
  registry_ok
    (set_sessions
       (PyDict.pop path (sessions (call addr SessionWatcher.Stop m)))
       (call addr SessionWatcher.Stop m)).
Proof.
  intros [Hnd Hent] Hget.
  destruct (Hent path addr Hget) as (w & Hw & Hwp & _).
  unfold call. rewrite Hw.
  destruct (SessionWatcher.Stop w (notify m)) as [w' n'] eqn:Hstop.
  split; cbn [set_sessions sessions objects].
  - by apply PyDict_NoDup_pop.
  - intros p a Hp.
    destruct (decide (p = path)) as [->|Hne].
    + by rewrite PyDict_get_pop_eq in Hp.
    + rewrite PyDict_get_pop_ne in Hp by done.
      destruct (Hent p a Hp) as (w0 & Hw0 & Hw0p & Hrest).
      exists w0. split; [|done].
      rewrite list_lookup_insert_ne; [done|].
      intros <-. congruence.
Qed.

Lemma registry_ok_mgr_event_handler uid event m :
  registry_ok m → registry_ok (__mgr_event_handler uid event m).
Proof.
  intros H. unfold __mgr_event_handler.
  destruct (existsb _ _); [|done].
  case_decide; [by apply registry_ok_Register|].
  case_decide; [|done].
  destruct (PyDict.get (GetPath event) (sessions m)) as [addr|] eqn:Hget;
    [|done].
  by apply registry_ok_destroy.
Qed.

Lemma registry_ok_step uid codes m op :
  registry_ok m → registry_ok (step uid codes m op).
Proof.
  intros H. destruct op; simpl.
  - by apply registry_ok_Register.
  - by apply registry_ok_CheckStatus.
  - by apply registry_ok_mgr_event_handler.
  - by apply registry_ok_foldl_invoke.
Qed.

Lemma registry_ok_run uid codes ops : ∀ m,
  registry_ok m → registry_ok (run uid codes ops m).
Proof.
  induction ops as [|op ops IH]; intros m H; simpl; [done|].
  by apply IH, registry_ok_step.
Qed.

(** The session manager a watcher was set up with stays the same. *)
Lemma sessmgr_call addr method m : sessmgr (call addr method m) = sessmgr m.
Proof.
  unfold call. destruct (objects m !! addr) as [w|]; [|done].
  by destruct (method w (notify m)).
Qed.

Lemma sessmgr_invoke_handler codes major minor msg m addr :
  sessmgr (invoke_handler codes major minor msg m addr) = sessmgr m.
Proof.
  unfold invoke_handler. destruct (objects m !! addr) as [w|]; [|done].
  by destruct (SessionWatcher.__status_chg_handler _ _ _ _ _ _) as [[? ?]|].
Qed.

Lemma sessmgr_step uid codes m op : sessmgr (step uid codes m op) = sessmgr m.
Proof.
  destruct op as [path|path status|event|path major minor msg]; simpl.
  - done.
  - unfold CheckStatus.
    destruct (PyDict.get path (sessions m)); [apply sessmgr_call | done].
  - unfold __mgr_event_handler.
    destruct (existsb _ _); [|done].
    case_decide; [done|]. case_decide; [|done].
    destruct (PyDict.get (GetPath event) (sessions m)); [|done].
    cbn [set_sessions sessmgr]. apply sessmgr_call.
  - unfold StatusChange. generalize (receivers path m). intros addrs.
    revert m. induction addrs as [|a addrs IH]; intros m; simpl; [done|].
    by rewrite IH, sessmgr_invoke_handler.
Qed.

Lemma sessmgr_run uid codes ops : ∀ m,
  sessmgr (run uid codes ops m) = sessmgr m.
Proof.
  induction ops as [|op ops IH]; intros m; simpl; [done|].
  by rewrite IH, sessmgr_step.
Qed.

(** [Register] attaches one more handler to the signal of its session
    and leaves every attached handler attached. *)
Lemma Register_receivers path p m :
  receivers p (Register path m) =
  receivers p m ++ (if String.eqb path p then [length (objects m)] else []).
Proof.
  unfold receivers. cbn [Register objects]. rewrite omap_app. f_equal.
  cbn [omap list_omap SessionWatcher.init SessionWatcher.session
       Session.StatusChangeCallback Session.path Session.status_callback
       SessionManager.Retrieve].
  by destruct (String.eqb path p).
Qed.

Lemma registered_receives path addr m :
  registry_ok m → PyDict.get path (sessions m) = Some addr →
  addr ∈ receivers path m.
Proof.
  intros [_ Hent] Hget.
  destruct (Hent path addr Hget) as (w & Hw & _ & Hsp & Hcb).
  apply list_elem_of_omap. exists w.
  split; [by eapply list_elem_of_lookup_2|].
  by rewrite Hsp, String.eqb_refl.
Qed.

End SessionManagerWatcherFacts.

(** ** No close call ever reaches the service *)

Section NeverCloses.
Import SessionManagerWatcher.

Lemma quiet_call addr method m n0 :
  (∀ w n, Notify_stores_None n →
     Notify_stores_None (method w n).2 ∧
     close_calls (Notify.service (method w n).2) =
     close_calls (Notify.service n)) →
  quiet_since n0 (notify m) → quiet_since n0 (notify (call addr method m)).
Proof.
  intros Hmeth [Hs Hc]. unfold call.
  destruct (objects m !! addr) as [w|]; [|done].
  destruct (Hmeth w (notify m) Hs) as [Hs' Hc'].
  destruct (method w (notify m)) as [w' n']. simpl in *.
  split; [done | congruence].
Qed.

Lemma quiet_invoke_handler codes major minor msg m addr n0 :
  quiet_since n0 (notify m) →
  quiet_since n0 (notify (invoke_handler codes major minor msg m addr)).
Proof.
  intros H. unfold invoke_handler, SessionWatcher.__status_chg_handler.
  destruct (StatusMajor_of_value codes major) as [maj|];
    [|by destruct (objects m !! addr)].
  destruct (StatusMinor_of_value codes minor) as [min|];
    [|by destruct (objects m !! addr)].
  change (quiet_since n0
            (notify (call addr (SessionWatcher.__evaluate_status maj min msg) m))).
  apply quiet_call; [|done].
  intros w n Hn. by apply evaluate_status_stores_None.
Qed.

Lemma quiet_step uid codes m op n0 :
  quiet_since n0 (notify m) → quiet_since n0 (notify (step uid codes m op)).
Proof.
  intros H. destruct op as [path|path status|event|path major minor msg];
    simpl.
  - done.
  - unfold CheckStatus.
    destruct (PyDict.get path (sessions m)) as [addr|]; [|done].
    apply quiet_call; [|done].
    intros w n Hn. by apply evaluate_status_stores_None.
  - unfold __mgr_event_handler.
    destruct (existsb _ _); [|done].
    case_decide; [done|]. case_decide; [|done].
    destruct (PyDict.get (GetPath event) (sessions m)) as [addr|]; [|done].
    cbn [set_sessions notify].
    apply quiet_call; [|done].
    intros w n Hn. by rewrite Stop_stores_None.
  - unfold StatusChange. generalize (receivers path m). intros addrs.
    revert m H. induction addrs as [|a addrs IH]; intros m H; simpl; [done|].
    by apply IH, quiet_invoke_handler.
Qed.

(** Whatever reaches the manager watcher, starting with a new [Notify]
    object: the dictionaries hold nothing but [None], and the service
    gets no [CloseNotification] call it had not got before. *)
Lemma never_closes uid codes ops s mgr :
  quiet_since (Notify.init s) (notify (run uid codes ops (init s mgr))).
Proof.
  assert (∀ m, quiet_since (Notify.init s) (notify m) →
               quiet_since (Notify.init s) (notify (run uid codes ops m)))
    as Hrun.
  { induction ops as [|op ops IH]; intros m H; simpl; [done|].
    by apply IH, quiet_step. }
  apply Hrun. split; [apply Notify_init_stores_None | done].
Qed.

End NeverCloses.

(** ** Statements about the registry *)

(** C5: an event whose owner is neither the current user nor uid 0 leaves
    the registry as it is, whatever its type and path; in fact nothing of
    the manager watcher changes. *)
Theorem foreign_owner_event_ignored (uid : Z) (event : ManagerEvent)
    (m : SessionManagerWatcher.t) :
  GetOwner event ≠ uid → GetOwner event ≠ 0 →
  SessionManagerWatcher.sessions
    (SessionManagerWatcher.__mgr_event_handler uid event m)
  = SessionManagerWatcher.sessions m ∧
  SessionManagerWatcher.__mgr_event_handler uid event m = m.
Proof.
  intros Huid Hroot. unfold SessionManagerWatcher.__mgr_event_handler.
  simpl. apply Z.eqb_neq in Huid, Hroot. by rewrite Huid, Hroot.
Qed.

Lemma foreign_owner_event_ignored_witness :
  SessionManagerWatcher.sessions
    (SessionManagerWatcher.__mgr_event_handler 1000
       {| GetType := SESS_DESTROYED; GetOwner := 1001;
          GetPath := example_path |} example_registered)
  = SessionManagerWatcher.sessions example_registered ∧
  SessionManagerWatcher.__mgr_event_handler 1000
    {| GetType := SESS_DESTROYED; GetOwner := 1001; GetPath := example_path |}
    example_registered
  = example_registered.
Proof.
  apply (foreign_owner_event_ignored 1000
           {| GetType := SESS_DESTROYED; GetOwner := 1001;
              GetPath := example_path |} example_registered); simpl; lia.
Defined.

(** C6: after any sequence of Register calls, status checks, manager
    events and status signals on a new manager watcher no path is a key of
    the registry twice.  [Register] adds a key only for a path that is not
    in the registry; registering a path a second time keeps the key list as
    it is and makes the entry point at a newly constructed watcher, which
    is not the one registered before. *)
Theorem registry_keys_unique (uid : Z) (codes : StatusCodes)
    (ops : list SessionManagerWatcher.Op) (s : Service)
    (mgr : SessionManager.t) (path : string) :
  let m :=
    SessionManagerWatcher.run uid codes ops
      (SessionManagerWatcher.init s mgr) in
  let m1 := SessionManagerWatcher.Register path m in
  let m2 := SessionManagerWatcher.Register path m1 in
  NoDup (PyDict.keys (SessionManagerWatcher.sessions m)) ∧
  NoDup (PyDict.keys (SessionManagerWatcher.sessions m2)) ∧
  PyDict.keys (SessionManagerWatcher.sessions m1) =
  (if PyDict.contains path (SessionManagerWatcher.sessions m)
   then PyDict.keys (SessionManagerWatcher.sessions m)
   else PyDict.keys (SessionManagerWatcher.sessions m) ++ [path]) ∧
  PyDict.keys (SessionManagerWatcher.sessions m2) =
  PyDict.keys (SessionManagerWatcher.sessions m1) ∧
  PyDict.get path (SessionManagerWatcher.sessions m1) =
  Some (length (SessionManagerWatcher.objects m)) ∧
  PyDict.get path (SessionManagerWatcher.sessions m2) =
  Some (length (SessionManagerWatcher.objects m1)) ∧
  length (SessionManagerWatcher.objects m1) ≠
  length (SessionManagerWatcher.objects m) ∧
  SessionManagerWatcher.objects m2 !! length (SessionManagerWatcher.objects m1) =
  Some (SessionWatcher.init (length (SessionManagerWatcher.objects m1))
          (SessionManager.Retrieve path mgr)).
Proof.
  intros m m1 m2.
  assert (registry_ok m) as Hm
    by apply registry_ok_run, registry_ok_init.
  assert (SessionManagerWatcher.sessmgr m = mgr) as Hmgr
    by apply sessmgr_run.
  subst m2 m1. clearbody m.
  split_and!.
  - apply Hm.
  - by do 2 apply registry_ok_Register.
  - apply PyDict_keys_set.
  - cbn [SessionManagerWatcher.Register SessionManagerWatcher.sessions].
    rewrite (PyDict_keys_set path _ (PyDict.set path _ _)).
    unfold PyDict.contains. by rewrite PyDict_get_set_eq.
  - apply Register_sessions_get.
  - apply Register_sessions_get.
  - cbn [SessionManagerWatcher.Register SessionManagerWatcher.objects].
    rewrite length_app. simpl. lia.
  - rewrite Register_objects_new. by rewrite <- Hmgr.
Qed.

(** C10, as stated, fails: registering the example path a second time
    leaves two handlers attached to the status-change signal of that
    session where there was one, so the registry entry is not the only
    state that differs. *)
Lemma Register_again_attaches_handler :
  ¬ only_registry_entry_changed example_path example_registered
      (SessionManagerWatcher.Register example_path example_registered).
Proof.
  intros (_ & _ & _ & _ & Hrecv).
  specialize (Hrecv example_path). vm_compute in Hrecv. discriminate.
Qed.

(** C10, amended: when [Register(path)] is called for a path that is in
    the registry, [Stop()] is not invoked on the replaced watcher: the
    notification sink and the service are as before (no notification is
    closed), every watcher constructed before is as it was, and the
    handler of the replaced watcher is still attached to the session's
    status-change signal.  What does change is the registry entry of that
    path, which now points at the new watcher, and the handlers attached
    to the signal of that session, which the new watcher's handler is
    added to. *)
Theorem Register_again_frame (uid : Z) (codes : StatusCodes)
    (ops : list SessionManagerWatcher.Op) (s : Service)
    (mgr : SessionManager.t) (path : string) (old : nat) :
  let m :=
    SessionManagerWatcher.run uid codes ops
      (SessionManagerWatcher.init s mgr) in
  let m' := SessionManagerWatcher.Register path m in
  let new := length (SessionManagerWatcher.objects m) in
  PyDict.get path (SessionManagerWatcher.sessions m) = Some old →
  SessionManagerWatcher.notify m' = SessionManagerWatcher.notify m ∧
  SessionManagerWatcher.sessmgr m' = SessionManagerWatcher.sessmgr m ∧
  (∀ a w, SessionManagerWatcher.objects m !! a = Some w →
     SessionManagerWatcher.objects m' !! a = Some w) ∧
  old ∈ SessionManagerWatcher.receivers path m' ∧
  PyDict.get path (SessionManagerWatcher.sessions m') = Some new ∧
  new ≠ old ∧
  PyDict.keys (SessionManagerWatcher.sessions m') =
  PyDict.keys (SessionManagerWatcher.sessions m) ∧
  (∀ p, p ≠ path →
     PyDict.get p (SessionManagerWatcher.sessions m') =
     PyDict.get p (SessionManagerWatcher.sessions m)) ∧
  SessionManagerWatcher.receivers path m' =
  SessionManagerWatcher.receivers path m ++ [new] ∧
  (∀ p, p ≠ path →
     SessionManagerWatcher.receivers p m' =
     SessionManagerWatcher.receivers p m).
Proof.
  intros m m' new Hget.
  assert (registry_ok m) as Hm
    by apply registry_ok_run, registry_ok_init.
  subst m' new. clearbody m.
  split_and!.
  - done.
  - done.
  - intros a w. apply Register_objects_old.
  - rewrite Register_receivers. apply elem_of_app. left.
    by apply registered_receives.
  - apply Register_sessions_get.
  - destruct Hm as [_ Hent].
    destruct (Hent path old Hget) as (w & Hw & _).
    apply lookup_lt_Some in Hw. lia.
  - cbn [SessionManagerWatcher.Register SessionManagerWatcher.sessions].
    rewrite PyDict_keys_set. unfold PyDict.contains. by rewrite Hget.
  - intros p Hp. by apply Register_sessions_other.
  - by rewrite Register_receivers, String.eqb_refl.
  - intros p Hp. rewrite Register_receivers.
    destruct (String.eqb path p) eqn:E; [|apply app_nil_r].
    apply String.eqb_eq in E. congruence.
Qed.

Lemma Register_again_frame_witness :
  PyDict.get example_path (SessionManagerWatcher.sessions example_registered)
  = Some 0%nat ∧
  SessionManagerWatcher.receivers example_path
    (SessionManagerWatcher.Register example_path example_registered)
  = SessionManagerWatcher.receivers example_path example_registered ++ [1%nat].
Proof.
  split; [reflexivity|].
  apply (Register_again_frame 1000 example_codes
           [SessionManagerWatcher.OpRegister example_path]
           example_service example_sessmgr example_path 0%nat).
  reflexivity.
Defined.

(** ** The log tailer *)

Section WatchSessionLogFacts.
Import WatchSessionLog.
Implicit Types (c : Console) (msg now : string).

Lemma split_lines_not_nil msg : split_lines msg ≠ [].
Proof.
  destruct msg as [|ch rest]; simpl; [done|].
  destruct (Ascii.eqb ch newline); [done|].
  by destruct (split_lines rest).
Qed.

(** Splitting at a newline: the pieces of what is before it, then the
    pieces of what is after it. *)
Lemma split_lines_newline a b :
  split_lines (a +:+ String newline b) = split_lines a ++ split_lines b.
Proof.
  induction a as [|ch a IH]; simpl.
  - done.
  - destruct (Ascii.eqb ch newline); [by rewrite IH|].
    rewrite IH. pose proof (split_lines_not_nil a) as Ha.
    by destruct (split_lines a).
Qed.

Lemma split_lines_newlines k :
  split_lines (newlines k) = repeat EmptyString (S k).
Proof.
  induction k as [|k IH]; [done|].
  unfold newlines in *. simpl repeat. simpl string_of_list_ascii.
  simpl split_lines. by rewrite IH.
Qed.

Lemma foldl_print (f : string → string) lines : ∀ c,
  foldl (λ c line, print (f line) c) c lines =
  {| stdout := stdout c ++ map f lines; quit_called := quit_called c |}.
Proof.
  induction lines as [|l lines IH]; intros c; simpl.
  - rewrite app_nil_r. by destruct c.
  - rewrite IH. simpl. by rewrite <- app_assoc.
Qed.

(** The handler in one equation: the lines of the non-empty pieces are
    appended, the quit flag is not touched. *)
Lemma LogHandler_eq now group catg msg c :
  LogHandler now group catg msg c =
  {| stdout :=
       stdout c ++ log_lines now (filter (λ l, l ≠ EmptyString) (split_lines msg));
     quit_called := quit_called c |}.
Proof.
  unfold LogHandler.
  rewrite (list_filter_iff (λ l, (0 < String.length l)%nat)
             (λ l, l ≠ EmptyString)).
  - destruct (filter _ (split_lines msg)) as [|first rest]; simpl.
    + rewrite app_nil_r. by destruct c.
    + rewrite foldl_print. simpl. by rewrite <- app_assoc.
  - intros [|ch l]; simpl; split; (done || lia).
Qed.

End WatchSessionLogFacts.

(** C9: the log handler prints the non-empty pieces of the message and
    nothing else: what it appends to the output is the timestamped line of
    the first non-empty piece and an indented line for every further
    non-empty piece; a blank line in the middle of a message makes no
    difference to the output; a message of newline characters only (the
    empty message included) prints nothing. *)
Theorem LogHandler_discards_empty_lines (now : string) (group catg : Z)
    (c : WatchSessionLog.Console) :
  (∀ msg,
     WatchSessionLog.stdout (WatchSessionLog.LogHandler now group catg msg c) =
     WatchSessionLog.stdout c ++
     log_lines now
       (filter (λ l, l ≠ EmptyString) (WatchSessionLog.split_lines msg))) ∧
  (∀ a b,
     WatchSessionLog.LogHandler now group catg
       (a +:+ String WatchSessionLog.newline (String WatchSessionLog.newline b)) c
     = WatchSessionLog.LogHandler now group catg
         (a +:+ String WatchSessionLog.newline b) c) ∧
  (∀ k, WatchSessionLog.LogHandler now group catg (newlines k) c = c).
Proof.
  split_and!.
  - intros msg. by rewrite LogHandler_eq.
  - intros a b. rewrite !LogHandler_eq, !split_lines_newline.
    change (String WatchSessionLog.newline b)
      with (EmptyString +:+ String WatchSessionLog.newline b).
    rewrite split_lines_newline, !filter_app.
    cbn [WatchSessionLog.split_lines].
    rewrite (filter_cons_False _ EmptyString []) by (intros H; by apply H).
    by rewrite filter_nil.
  - intros k. rewrite LogHandler_eq, split_lines_newlines.
    assert (filter (λ l, l ≠ EmptyString) (repeat EmptyString (S k)) = []) as ->.
    { induction (S k) as [|j IH]; [done|].
      simpl repeat. by rewrite filter_cons_False by (intros H; by apply H). }
    simpl. rewrite app_nil_r. by destruct c.
Qed.

(** C4: for a status event whose two codes are members of the
    enumerations, the status handler prints the event's line, and it calls
    [mainloop.quit()] exactly when the status is one of SESSION/PROC_STOPPED,
    CONNECTION/CONN_AUTH_FAILED, CONNECTION/CONN_FAILED and
    CONNECTION/CONN_DISCONNECTED; the run loop comes back after such an
    event and goes on with the next signal after any other. *)
Theorem StatusHandler_quits_iff_terminal (codes : StatusCodes)
    (now : string) (major minor : Z) (msg : string)
    (maj : StatusMajor) (min : StatusMinor) (c : WatchSessionLog.Console) :
  StatusMajor_of_value codes major = Some maj →
  StatusMinor_of_value codes minor = Some min →
  ∃ c',
    WatchSessionLog.StatusHandler codes now major minor msg c = Some c' ∧
    WatchSessionLog.stdout c' =
    WatchSessionLog.stdout c ++ [status_line now maj min msg] ∧
    (WatchSessionLog.quit_called c' = true ↔
     WatchSessionLog.quit_called c = true ∨ terminal_status maj min) ∧
    (∀ rest,
       terminal_status maj min →
       WatchSessionLog.mainloop_run codes
         (WatchSessionLog.StatusSignal now major minor msg :: rest) c
       = (c', true)) ∧
    (∀ rest,
       ¬ terminal_status maj min →
       WatchSessionLog.quit_called c = false →
       WatchSessionLog.mainloop_run codes
         (WatchSessionLog.StatusSignal now major minor msg :: rest) c
       = WatchSessionLog.mainloop_run codes rest c').
Proof.
  intros Hmaj Hmin.
  assert (∃ c',
    WatchSessionLog.StatusHandler codes now major minor msg c = Some c' ∧
    WatchSessionLog.stdout c' =
    WatchSessionLog.stdout c ++ [status_line now maj min msg] ∧
    (WatchSessionLog.quit_called c' = true ↔
     WatchSessionLog.quit_called c = true ∨ terminal_status maj min))
    as (c' & Heq & Hout & Hquit).
  { unfold WatchSessionLog.StatusHandler. rewrite Hmaj, Hmin.
    eexists. split; [reflexivity|]. unfold terminal_status.
    destruct maj, min;
      cbn [bool_decide decide decide_rel StatusMajor_eq_dec StatusMinor_eq_dec
           andb WatchSessionLog.mainloop_quit WatchSessionLog.print
           WatchSessionLog.stdout WatchSessionLog.quit_called];
      (split; [reflexivity|]); simpl; intuition congruence. }
  exists c'. split_and!; try done.
  - intros rest Hterm. cbn [WatchSessionLog.mainloop_run].
    rewrite Heq. cbv zeta. cbn [default from_option]. unfold id.
    assert (WatchSessionLog.quit_called c' = true) as -> by (apply Hquit; by right).
    done.
  - intros rest Hterm Hc. cbn [WatchSessionLog.mainloop_run].
    rewrite Heq. cbv zeta. cbn [default from_option]. unfold id.
    destruct (WatchSessionLog.quit_called c') eqn:E; [|done].
    destruct (proj1 Hquit eq_refl) as [Hq|Hq]; [congruence | done].
Qed.

(** C8: when the configuration name is given and the lookup answers with
    no path, or with more than one, the program ends in a usage error,
    which exits with the non-zero status 2; the message names the
    configuration in the first case and says to use --path instead in the
    second; the lookup is the only call that was made: no session object
    was retrieved, no handler attached, nothing printed. *)
Theorem ambiguous_config_is_usage_error (codes : StatusCodes)
    (lookup : string → list string) (opts : WatchSessionLog.Options)
    (signals : list WatchSessionLog.Incoming) (name : string) :
  WatchSessionLog.config opts = Some name →
  length (lookup name) ≠ 1%nat →
  let p := WatchSessionLog.main codes lookup opts signals in
  ∃ message,
    WatchSessionLog.outcome p = WatchSessionLog.UsageError message ∧
    WatchSessionLog.exit_status (WatchSessionLog.outcome p) = Some 2 ∧
    (length (lookup name) = 0%nat →
     message = "No VPN session found with the " +:+ quoted name
               +:+ " configuration name") ∧
    ((1 < length (lookup name))%nat →
     message = "More than one running VPN session was found under the name "
               +:+ quoted name +:+ ". Use --path instead") ∧
    WatchSessionLog.actions p = [WatchSessionLog.LookupConfigName name] ∧
    Forall (λ a, ¬ touches_session a) (WatchSessionLog.actions p) ∧
    WatchSessionLog.stdout (WatchSessionLog.console p) = [].
Proof.
  intros Hcfg Hlen p. subst p. unfold WatchSessionLog.main. rewrite Hcfg.
  destruct (lookup name) as [|first [|second more]]; simpl in Hlen.
  - eexists. split_and!; try done.
    + simpl. lia.
    + repeat constructor. simpl. tauto.
  - done.
  - eexists. split_and!; try done.
    repeat constructor. simpl. tauto.
Qed.

Lemma ambiguous_config_is_usage_error_witness :
  (∃ message,
     WatchSessionLog.outcome
       (WatchSessionLog.main example_codes (λ _, []) example_options [])
     = WatchSessionLog.UsageError message ∧
     message = "No VPN session found with the " +:+ quoted "foo"
               +:+ " configuration name") ∧
  (∃ message,
     WatchSessionLog.outcome
       (WatchSessionLog.main example_codes
          (λ _, [example_path; "/net/openvpn/v3/sessions/s2"])
          example_options [])
     = WatchSessionLog.UsageError message ∧
     message = "More than one running VPN session was found under the name "
               +:+ quoted "foo" +:+ ". Use --path instead").
Proof.
  split.
  - destruct (ambiguous_config_is_usage_error example_codes (λ _, [])
                example_options [] "foo" eq_refl)
      as (message & Hout & _ & Hzero & _).
    + simpl. lia.
    + exists message. split; [exact Hout | apply Hzero; reflexivity].
  - destruct (ambiguous_config_is_usage_error example_codes
                (λ _, [example_path; "/net/openvpn/v3/sessions/s2"])
                example_options [] "foo" eq_refl)
      as (message & Hout & _ & _ & Hmany & _).
    + simpl. lia.
    + exists message. split; [exact Hout | apply Hmany; simpl; lia].
Defined.

Lemma StatusHandler_quits_iff_terminal_witness :
  ∃ c',
    WatchSessionLog.StatusHandler example_codes "2025-01-01 10:00:00.000000"
      2 11 "bad credentials"
      {| WatchSessionLog.stdout := []; WatchSessionLog.quit_called := false |}
    = Some c' ∧
    WatchSessionLog.stdout c' =
    [status_line "2025-01-01 10:00:00.000000" CONNECTION CONN_AUTH_FAILED
       "bad credentials"] ∧
    WatchSessionLog.quit_called c' = true.
Proof.
  destruct (StatusHandler_quits_iff_terminal example_codes
              "2025-01-01 10:00:00.000000" 2 11 "bad credentials"
              CONNECTION CONN_AUTH_FAILED
              {| WatchSessionLog.stdout := []; WatchSessionLog.quit_called := false |}
              eq_refl eq_refl)
    as (c' & Heq & Hout & Hquit & _).
  exists c'. split_and!; [exact Heq | exact Hout |].
  apply Hquit. right. unfold terminal_status. tauto.
Defined.

(** * Further properties of the two scripts *)

(** ** What holds of the sink along any run of the manager watcher *)

(** A relation between sinks that every status evaluation and every
    [Stop()] respects, and that is reflexive and transitive, relates the
    sink before a run to the sink after it. *)
Section NotifyAlongRun.
Import SessionManagerWatcher.
Variable R : Notify.t → Notify.t → Prop.
Hypothesis R_refl : ∀ n, R n n.
Hypothesis R_trans : ∀ n1 n2 n3, R n1 n2 → R n2 n3 → R n1 n3.
Hypothesis R_evaluate : ∀ maj min msg w n,
  R n (SessionWatcher.__evaluate_status maj min msg w n).2.
Hypothesis R_Stop : ∀ w n, R n (SessionWatcher.Stop w n).2.

Lemma along_call addr method m :
  (∀ w n, R n (method w n).2) → R (notify m) (notify (call addr method m)).
Proof.
  intros Hmeth. unfold call.
  destruct (objects m !! addr) as [w|]; [|apply R_refl].
  specialize (Hmeth w (notify m)).
  by destruct (method w (notify m)) as [w' n'].
Qed.

Lemma along_invoke_handler codes major minor msg m addr :
  R (notify m) (notify (invoke_handler codes major minor msg m addr)).
Proof.
  unfold invoke_handler, SessionWatcher.__status_chg_handler.
  destruct (objects m !! addr) as [w|]; [|apply R_refl].
  destruct (StatusMajor_of_value codes major) as [maj|]; [|apply R_refl].
  destruct (StatusMinor_of_value codes minor) as [min|]; [|apply R_refl].
  pose proof (R_evaluate maj min msg w (notify m)) as H.
  by destruct (SessionWatcher.__evaluate_status maj min msg w (notify m)).
Qed.

Lemma along_StatusChange codes path major minor msg m :
  R (notify m) (notify (StatusChange codes path major minor msg m)).
Proof.
  unfold StatusChange. generalize (receivers path m). intros addrs.
  revert m. induction addrs as [|a addrs IH]; intros m; simpl; [apply R_refl|].
  eapply R_trans; [apply along_invoke_handler | apply IH].
Qed.

Lemma along_step uid codes m op :
  R (notify m) (notify (step uid codes m op)).
Proof.
  destruct op as [path|path status|event|path major minor msg]; simpl.
  - apply R_refl.
  - unfold CheckStatus.
    destruct (PyDict.get path (sessions m)) as [addr|]; [|apply R_refl].
    apply along_call. intros w n. apply R_evaluate.
  - unfold __mgr_event_handler.
    destruct (existsb _ _); [|apply R_refl].
    case_decide; [apply R_refl|]. case_decide; [|apply R_refl].
    destruct (PyDict.get (GetPath event) (sessions m)) as [addr|];
      [|apply R_refl].
    cbn [set_sessions notify]. apply along_call, R_Stop.
  - apply along_StatusChange.
Qed.

Lemma along_run uid codes ops : ∀ m,
  R (notify m) (notify (run uid codes ops m)).
Proof.
  induction ops as [|op ops IH]; intros m; simpl; [apply R_refl|].
  eapply R_trans; [apply along_step | apply IH].
Qed.

End NotifyAlongRun.

Section SinkFacts.
Implicit Types (n : Notify.t).

Lemma extended_refl s : extended_by_notifications s s.
Proof. exists []. split; [by rewrite app_nil_r | apply Forall_nil_2]. Qed.

Lemma extended_trans s1 s2 s3 :
  extended_by_notifications s1 s2 → extended_by_notifications s2 s3 →
  extended_by_notifications s1 s3.
Proof.
  intros (new1 & H1 & F1) (new2 & H2 & F2). exists (new1 ++ new2). split.
  - by rewrite H2, H1, app_assoc.
  - by apply Forall_app.
Qed.

Lemma extended_one s summary body :
  extended_by_notifications s
    {| service_calls := service_calls s ++ [notification summary body];
       service_next_id := service_next_id s + 1 |}.
Proof.
  exists [notification summary body]. split; [done|].
  apply Forall_singleton. by exists summary, body.
Qed.

(** With only [None] stored, a status evaluation leaves only [None]
    stored and sends the service nothing but notifications. *)
Lemma evaluate_status_extends maj min msg w n :
  Notify_stores_None n →
  Notify_stores_None (SessionWatcher.__evaluate_status maj min msg w n).2 ∧
  extended_by_notifications (Notify.service n)
    (Notify.service (SessionWatcher.__evaluate_status maj min msg w n).2).
Proof.
  intros H. split; [by apply evaluate_status_stores_None|].
  unfold SessionWatcher.__evaluate_status.
  repeat case_decide; try destruct (negb _); cbn [fst snd];
    try apply extended_refl.
  - rewrite Notify_WebAuthenticate_None by done. apply extended_one.
  - rewrite Notify_Connected_None by done. apply extended_one.
  - rewrite Notify_Reconnected_None by done. apply extended_one.
  - rewrite Notify_Reconnecting_None by done. apply extended_one.
  - rewrite Notify_Disconnected_None by done. apply extended_one.
Qed.

(** Closing never touches the two dictionaries, whatever they hold. *)
Lemma CloseNotification_dicts group path n :
  Notify.auth_notif (Notify.CloseNotification group path n) = Notify.auth_notif n ∧
  Notify.reconn_notif (Notify.CloseNotification group path n) = Notify.reconn_notif n.
Proof.
  unfold Notify.CloseNotification.
  destruct (String.eqb "auth" group).
  - by destruct (PyDict.get path (Notify.auth_notif n)) as [[id|]|].
  - destruct (String.eqb "reconnect" group); [|done].
    by destruct (PyDict.get path (Notify.reconn_notif n)) as [[id|]|].
Qed.

Lemma guarded_close_dicts (b : bool) group path n :
  Notify.auth_notif (if b then Notify.CloseNotification group path n else n)
  = Notify.auth_notif n ∧
  Notify.reconn_notif (if b then Notify.CloseNotification group path n else n)
  = Notify.reconn_notif n.
Proof. destruct b; [apply CloseNotification_dicts | done]. Qed.

Lemma PyDict_keys_set_subseteq {V} k (v : V) d :
  PyDict.keys d ⊆ PyDict.keys (PyDict.set k v d).
Proof.
  rewrite PyDict_keys_set. destruct (PyDict.contains k d); [done|].
  by apply list_subseteq_app_l.
Qed.

Lemma entries_kept_refl n : entries_kept n n.
Proof. by split. Qed.

Lemma entries_kept_trans n1 n2 n3 :
  entries_kept n1 n2 → entries_kept n2 n3 → entries_kept n1 n3.
Proof. intros [? ?] [? ?]. split; by etrans. Qed.

End SinkFacts.

Section SinkEntries.
Implicit Types (n : Notify.t) (path : string).

(** The dictionaries after each of the five notification methods, for
    any sink: the entry of the session is (re)written with [None] in the
    dictionary of the method's category, everything else stays. *)
Lemma WebAuthenticate_dicts path url n :
  Notify.auth_notif (Notify.WebAuthenticate path url n)
  = PyDict.set path None (Notify.auth_notif n) ∧
  Notify.reconn_notif (Notify.WebAuthenticate path url n)
  = Notify.reconn_notif n.
Proof.
  unfold Notify.WebAuthenticate. cbv zeta.
  destruct (guarded_close_dicts (PyDict.contains path (Notify.auth_notif n))
              "auth" path n) as [Ha Hr].
  unfold Notify.__notify. simpl. by rewrite Ha, Hr.
Qed.

Lemma Connected_dicts path name n :
  Notify.auth_notif (Notify.Connected path name n)
  = PyDict.set path None (Notify.auth_notif n) ∧
  Notify.reconn_notif (Notify.Connected path name n)
  = Notify.reconn_notif n.
Proof.
  unfold Notify.Connected. cbv zeta.
  destruct (guarded_close_dicts (PyDict.contains path (Notify.auth_notif n))
              "auth" path n) as [Ha Hr].
  unfold Notify.__notify. simpl. by rewrite Ha, Hr.
Qed.

Lemma Reconnecting_dicts path name n :
  Notify.auth_notif (Notify.Reconnecting path name n)
  = Notify.auth_notif n ∧
  Notify.reconn_notif (Notify.Reconnecting path name n)
  = PyDict.set path None (Notify.reconn_notif n).
Proof.
  unfold Notify.Reconnecting. cbv zeta.
  destruct (guarded_close_dicts (PyDict.contains path (Notify.reconn_notif n))
              "reconnect" path n) as [Ha Hr].
  unfold Notify.__notify. simpl. by rewrite Ha, Hr.
Qed.

Lemma Reconnected_dicts path name n :
  Notify.auth_notif (Notify.Reconnected path name n)
  = Notify.auth_notif n ∧
  Notify.reconn_notif (Notify.Reconnected path name n)
  = PyDict.set path None (Notify.reconn_notif n).
Proof.
  unfold Notify.Reconnected. cbv zeta.
  destruct (guarded_close_dicts (PyDict.contains path (Notify.reconn_notif n))
              "reconnect" path n) as [Ha Hr].
  unfold Notify.__notify. simpl. by rewrite Ha, Hr.
Qed.

Lemma Disconnected_dicts path name n :
  Notify.auth_notif (Notify.Disconnected path name n)
  = Notify.auth_notif n ∧
  Notify.reconn_notif (Notify.Disconnected path name n)
  = PyDict.set path None (Notify.reconn_notif n).
Proof.
  unfold Notify.Disconnected. cbv zeta.
  destruct (guarded_close_dicts (PyDict.contains path (Notify.auth_notif n))
              "auth" path n) as [Ha Hr].
  set (n1 := if PyDict.contains path (Notify.auth_notif n)
             then Notify.CloseNotification "auth" path n else n) in *.
  destruct (guarded_close_dicts (PyDict.contains path (Notify.reconn_notif n1))
              "reconnect" path n1) as [Ha' Hr'].
  unfold Notify.__notify. simpl. by rewrite Ha', Hr', Ha, Hr.
Qed.

Lemma evaluate_status_entries_kept maj min msg w n :
  entries_kept n (SessionWatcher.__evaluate_status maj min msg w n).2.
Proof.
  unfold SessionWatcher.__evaluate_status, entries_kept.
  repeat case_decide; try destruct (negb _); cbn [fst snd]; try done.
  - destruct (WebAuthenticate_dicts (SessionWatcher.path w) msg n) as [-> ->].
    split; [apply PyDict_keys_set_subseteq | done].
  - destruct (Connected_dicts (SessionWatcher.path w)
                (SessionWatcher.cfgname w) n) as [-> ->].
    split; [apply PyDict_keys_set_subseteq | done].
  - destruct (Reconnected_dicts (SessionWatcher.path w)
                (SessionWatcher.cfgname w) n) as [-> ->].
    split; [done | apply PyDict_keys_set_subseteq].
  - destruct (Reconnecting_dicts (SessionWatcher.path w)
                (SessionWatcher.cfgname w) n) as [-> ->].
    split; [done | apply PyDict_keys_set_subseteq].
  - destruct (Disconnected_dicts (SessionWatcher.path w)
                (SessionWatcher.cfgname w) n) as [-> ->].
    split; [done | apply PyDict_keys_set_subseteq].
Qed.

Lemma Stop_entries_kept w n : entries_kept n (SessionWatcher.Stop w n).2.
Proof.
  unfold entries_kept, SessionWatcher.Stop. cbn [snd].
  by destruct (CloseNotification_dicts "auth" (SessionWatcher.path w) n)
    as [-> ->].
Qed.

End SinkEntries.

(** X1: whatever is registered, checked, created, destroyed or signalled,
    a manager watcher set up on the service [s] sends that service nothing
    but [Notify] calls for the application "OpenVPN 3 Linux" with
    replaces-id 0, icon "network" and timeout 0, after the calls the
    service had received before. *)
Theorem service_receives_only_notifications (uid : Z) (codes : StatusCodes)
    (ops : list SessionManagerWatcher.Op) (s : Service)
    (mgr : SessionManager.t) :
  extended_by_notifications s
    (Notify.service
       (SessionManagerWatcher.notify
          (SessionManagerWatcher.run uid codes ops
             (SessionManagerWatcher.init s mgr)))).
Proof.
  pose proof (along_run
    (λ n n', Notify_stores_None n →
             Notify_stores_None n' ∧
             extended_by_notifications (Notify.service n) (Notify.service n')))
    as H.
  apply (H ltac:(intros n Hn; split; [done | apply extended_refl])
           ltac:(intros n1 n2 n3 H12 H23 H1;
                 destruct (H12 H1) as [H2 E12];
                 destruct (H23 H2) as [H3 E23];
                 split; [done | by eapply extended_trans])
           ltac:(intros maj min msg w n Hn; by apply evaluate_status_extends)
           ltac:(intros w n Hn; rewrite Stop_stores_None by done;
                 split; [done | apply extended_refl])
           uid codes ops (SessionManagerWatcher.init s mgr)).
  apply Notify_init_stores_None.
Qed.

(** X2: the sink never drops an entry: along any sequence of Register
    calls, status checks, manager events (session destruction included)
    and status signals, from any state of the manager watcher, every
    session path that has an entry in the auth or the reconnect dictionary
    keeps having one. *)
Theorem sink_never_forgets (uid : Z) (codes : StatusCodes)
    (ops : list SessionManagerWatcher.Op) (m : SessionManagerWatcher.t) :
  PyDict.keys (Notify.auth_notif (SessionManagerWatcher.notify m)) ⊆
  PyDict.keys
    (Notify.auth_notif
       (SessionManagerWatcher.notify (SessionManagerWatcher.run uid codes ops m)))
  ∧
  PyDict.keys (Notify.reconn_notif (SessionManagerWatcher.notify m)) ⊆
  PyDict.keys
    (Notify.reconn_notif
       (SessionManagerWatcher.notify (SessionManagerWatcher.run uid codes ops m))).
Proof.
  apply (along_run entries_kept entries_kept_refl entries_kept_trans
           evaluate_status_entries_kept Stop_entries_kept uid codes ops m).
Qed.

(** ** Status events and the registry *)

Section StatusAndRegistry.
Import SessionManagerWatcher.
Implicit Types (m : SessionManagerWatcher.t) (path : string).

(** Replacing an object by one with the same session changes no list of
    receivers. *)
Lemma omap_insert_same {A B} (f : A → option B) (l : list A) i x y :
  l !! i = Some x → f y = f x → omap f (<[i:=y]> l) = omap f l.
Proof.
  revert i. induction l as [|a l IH]; intros [|i] Hl Hf; simpl in *; try done.
  - injection Hl as ->. by rewrite Hf.
  - specialize (IH i Hl Hf). destruct (f a); [f_equal|]; exact IH.
Qed.

Lemma call_same_session addr method m :
  (∀ w n, SessionWatcher.session (method w n).1 = SessionWatcher.session w) →
  sessions (call addr method m) = sessions m ∧
  length (objects (call addr method m)) = length (objects m) ∧
  ∀ p, receivers p (call addr method m) = receivers p m.
Proof.
  intros Hmeth. unfold call.
  destruct (objects m !! addr) as [w|] eqn:Hw; [|done].
  specialize (Hmeth w (notify m)).
  destruct (method w (notify m)) as [w' n']. simpl in Hmeth.
  split_and!; cbn [sessions objects]; [done | apply length_insert |].
  intros p. unfold receivers. cbn [objects].
  apply (omap_insert_same _ _ _ w); [done | by rewrite Hmeth].
Qed.

Lemma invoke_handler_same_session codes major minor msg m addr :
  sessions (invoke_handler codes major minor msg m addr) = sessions m ∧
  length (objects (invoke_handler codes major minor msg m addr))
  = length (objects m) ∧
  ∀ p, receivers p (invoke_handler codes major minor msg m addr)
       = receivers p m.
Proof.
  unfold invoke_handler, SessionWatcher.__status_chg_handler.
  destruct (StatusMajor_of_value codes major) as [maj|];
    [|by destruct (objects m !! addr)].
  destruct (StatusMinor_of_value codes minor) as [min|];
    [|by destruct (objects m !! addr)].
  apply (call_same_session addr (SessionWatcher.__evaluate_status maj min msg)).
  intros w n. apply evaluate_status_fields.
Qed.

End StatusAndRegistry.

Section StatusSignals.
Import SessionManagerWatcher.
Implicit Types (m : SessionManagerWatcher.t) (path : string).

Lemma foldl_invoke_same_session codes major minor msg addrs : ∀ m,
  sessions (foldl (invoke_handler codes major minor msg) m addrs) = sessions m ∧
  length (objects (foldl (invoke_handler codes major minor msg) m addrs))
  = length (objects m) ∧
  ∀ p, receivers p (foldl (invoke_handler codes major minor msg) m addrs)
       = receivers p m.
Proof.
  induction addrs as [|a addrs IH]; intros m; simpl; [done|].
  destruct (IH (invoke_handler codes major minor msg m a)) as (-> & -> & Hr).
  destruct (invoke_handler_same_session codes major minor msg m a)
    as (-> & -> & Hr').
  split_and!; try done. intros p. by rewrite Hr, Hr'.
Qed.

Lemma evaluate_status_unhandled maj min msg w n :
  ¬ handled_status maj min →
  SessionWatcher.__evaluate_status maj min msg w n = (w, n).
Proof.
  intros H. unfold SessionWatcher.__evaluate_status.
  repeat case_decide; subst; try done;
    exfalso; apply H; unfold handled_status; tauto.
Qed.

Lemma invoke_handler_unhandled codes major minor msg m addr :
  (∀ maj min, StatusMajor_of_value codes major = Some maj →
     StatusMinor_of_value codes minor = Some min → ¬ handled_status maj min) →
  invoke_handler codes major minor msg m addr = m.
Proof.
  intros H. unfold invoke_handler, SessionWatcher.__status_chg_handler.
  destruct (objects m !! addr) as [w|] eqn:Hw; [|done].
  destruct (StatusMajor_of_value codes major) as [maj|]; [|done].
  destruct (StatusMinor_of_value codes minor) as [min|]; [|done].
  rewrite evaluate_status_unhandled by by apply H.
  rewrite list_insert_id by done. by destruct m.
Qed.

End StatusSignals.

(** X3: a status-change signal and a status check never touch the
    registry or the subscriptions: the registry, the number of watcher
    objects and the handlers attached to every session's signal are the
    same before and after, whatever the status is. *)
Theorem status_events_keep_registry (codes : StatusCodes) (path : string)
    (major minor : Z) (msg : string) (status : Status)
    (m : SessionManagerWatcher.t) :
  (SessionManagerWatcher.sessions
     (SessionManagerWatcher.StatusChange codes path major minor msg m)
   = SessionManagerWatcher.sessions m ∧
   length (SessionManagerWatcher.objects
             (SessionManagerWatcher.StatusChange codes path major minor msg m))
   = length (SessionManagerWatcher.objects m) ∧
   ∀ p, SessionManagerWatcher.receivers p
          (SessionManagerWatcher.StatusChange codes path major minor msg m)
        = SessionManagerWatcher.receivers p m) ∧
  (SessionManagerWatcher.sessions
     (SessionManagerWatcher.CheckStatus path status m)
   = SessionManagerWatcher.sessions m ∧
   length (SessionManagerWatcher.objects
             (SessionManagerWatcher.CheckStatus path status m))
   = length (SessionManagerWatcher.objects m) ∧
   ∀ p, SessionManagerWatcher.receivers p
          (SessionManagerWatcher.CheckStatus path status m)
        = SessionManagerWatcher.receivers p m).
Proof.
  split.
  - apply foldl_invoke_same_session.
  - unfold SessionManagerWatcher.CheckStatus.
    destruct (PyDict.get path (SessionManagerWatcher.sessions m)) as [addr|];
      [|done].
    apply call_same_session. intros w n.
    apply (evaluate_status_fields (status_major status) (status_minor status)
             (status_message status) w n).
Qed.

(** X4: a status-change signal whose codes are not those of
    SESSION/SESS_AUTH_URL, CONNECTION/CONN_CONNECTED,
    CONNECTION/CONN_RECONNECTING or CONNECTION/CONN_DISCONNECTED (codes no
    member of the enumerations has included) leaves the manager watcher,
    its watchers, the sink and the service exactly as they were. *)
Theorem unhandled_signal_ignored (codes : StatusCodes) (path : string)
    (major minor : Z) (msg : string) (m : SessionManagerWatcher.t) :
  (∀ maj min, StatusMajor_of_value codes major = Some maj →
     StatusMinor_of_value codes minor = Some min → ¬ handled_status maj min) →
  SessionManagerWatcher.StatusChange codes path major minor msg m = m.
Proof.
  intros H. unfold SessionManagerWatcher.StatusChange.
  induction (SessionManagerWatcher.receivers path m) as [|a addrs IH];
    simpl; [done|].
  by rewrite invoke_handler_unhandled.
Qed.

Lemma unhandled_signal_ignored_witness :
  SessionManagerWatcher.StatusChange example_codes example_path 2 10
    "connection failed" example_registered
  = example_registered.
Proof.
  apply (unhandled_signal_ignored example_codes example_path 2 10
           "connection failed" example_registered).
  intros maj min Hmaj Hmin. vm_compute in Hmaj, Hmin.
  injection Hmaj as <-. injection Hmin as <-.
  unfold handled_status. intros [[_ H]|[[_ H]|[[_ H]|[_ H]]]]; discriminate H.
Defined.

(** ** Handlers and the watchers they belong to *)

Section HandlersOwn.
Import SessionManagerWatcher.
Implicit Types (m : SessionManagerWatcher.t) (path : string).

Lemma handlers_own_init s mgr : handlers_own (init s mgr).
Proof. intros a w h Hw. done. Qed.

Lemma handlers_own_Register path m :
  handlers_own m → handlers_own (Register path m).
Proof.
  intros H a w h Hw Hcb. cbn [Register objects] in Hw.
  apply lookup_app_Some in Hw as [Hw | [Hlen Hw]].
  - by apply (H a w h).
  - destruct (a - length (objects m))%nat as [|k] eqn:E; [|done].
    simpl in Hw. injection Hw as <-. simpl in Hcb. injection Hcb as <-. lia.
Qed.

(** Calling a method that keeps the callback of the session, or clears
    it *)
Lemma handlers_own_call addr method m :
  (∀ w n,
     Session.status_callback (SessionWatcher.session (method w n).1)
     = Session.status_callback (SessionWatcher.session w) ∨
     Session.status_callback (SessionWatcher.session (method w n).1) = None) →
  handlers_own m → handlers_own (call addr method m).
Proof.
  intros Hmeth H. unfold call.
  destruct (objects m !! addr) as [w|] eqn:Hw; [|done].
  specialize (Hmeth w (notify m)).
  destruct (method w (notify m)) as [w' n']. simpl in Hmeth.
  intros a w0 h Hw0 Hcb. cbn [objects] in Hw0.
  destruct (decide (a = addr)) as [->|Hne].
  - rewrite list_lookup_insert_eq in Hw0 by by eapply lookup_lt_Some.
    injection Hw0 as <-.
    destruct Hmeth as [Hsame|Hnone]; [|congruence].
    apply (H addr w h Hw). congruence.
  - rewrite list_lookup_insert_ne in Hw0 by done. by apply (H a w0 h).
Qed.

Lemma handlers_own_step uid codes m op :
  handlers_own m → handlers_own (step uid codes m op).
Proof.
  intros H. destruct op as [path|path status|event|path major minor msg];
    simpl.
  - by apply handlers_own_Register.
  - unfold CheckStatus.
    destruct (PyDict.get path (sessions m)) as [addr|]; [|done].
    apply handlers_own_call; [|done]. intros w n. left.
    unfold SessionWatcher.CheckStatus.
    by destruct (evaluate_status_fields (status_major status)
                   (status_minor status) (status_message status) w n)
      as [-> _].
  - unfold __mgr_event_handler.
    destruct (existsb _ _); [|done].
    case_decide; [by apply handlers_own_Register|]. case_decide; [|done].
    destruct (PyDict.get (GetPath event) (sessions m)) as [addr|]; [|done].
    change (handlers_own (call addr SessionWatcher.Stop m)).
    apply handlers_own_call; [|done]. intros w n. by right.
  - unfold StatusChange. generalize (receivers path m). intros addrs.
    revert m H. induction addrs as [|a addrs IH]; intros m H; simpl; [done|].
    apply IH. unfold invoke_handler, SessionWatcher.__status_chg_handler.
    destruct (StatusMajor_of_value codes major) as [maj|];
      [|by destruct (objects m !! a)].
    destruct (StatusMinor_of_value codes minor) as [min|];
      [|by destruct (objects m !! a)].
    apply (handlers_own_call a (SessionWatcher.__evaluate_status maj min msg));
      [|done].
    intros w n. left.
    by destruct (evaluate_status_fields maj min msg w n) as [-> _].
Qed.

Lemma handlers_own_run uid codes ops : ∀ m,
  handlers_own m → handlers_own (run uid codes ops m).
Proof.
  induction ops as [|op ops IH]; intros m H; simpl; [done|].
  by apply IH, handlers_own_step.
Qed.

(** The receivers of a session's signal are the addresses of the
    watchers of that session whose handler is attached. *)
Lemma elem_of_receivers path h m :
  handlers_own m →
  h ∈ receivers path m ↔
  ∃ w, objects m !! h = Some w ∧
       Session.path (SessionWatcher.session w) = path ∧
       Session.status_callback (SessionWatcher.session w) = Some h.
Proof.
  intros Hown. unfold receivers. rewrite list_elem_of_omap. split.
  - intros (w & Hin & Hf).
    apply list_elem_of_lookup_1 in Hin as [a Ha].
    destruct (String.eqb _ path) eqn:E; [|done].
    apply String.eqb_eq in E.
    assert (h = a) as -> by by eapply Hown.
    by exists w.
  - intros (w & Hw & Hp & Hcb). exists w.
    split; [by eapply list_elem_of_lookup_2|].
    by rewrite Hp, String.eqb_refl.
Qed.

End HandlersOwn.

Section DictRoundTrip.
Context {V : Type}.

(** Removing a key right after it was added gives the dictionary back. *)
Lemma PyDict_pop_set_new k (v : V) (d : PyDict.t V) :
  PyDict.get k d = None → PyDict.pop k (PyDict.set k v d) = d.
Proof.
  induction d as [|[k' v'] d IH]; simpl.
  - intros _. by rewrite String.eqb_refl.
  - destruct (String.eqb k k') eqn:E; [done|].
    intros H. simpl. rewrite E. by rewrite IH.
Qed.

End DictRoundTrip.

(** ** Session destruction *)

Section Destroy.
Import SessionManagerWatcher.
Implicit Types (m : SessionManagerWatcher.t) (path : string).

Lemma accepted_owner uid owner :
  owner = uid ∨ owner = 0 → existsb (Z.eqb owner) [uid; 0] = true.
Proof.
  intros [->| ->]; cbn [existsb].
  - by rewrite Z.eqb_refl.
  - rewrite (Z.eqb_refl 0). by destruct (0 =? uid).
Qed.

(** The destroyed branch of the event handler, for a registered path *)
Lemma mgr_event_destroy uid event addr w m :
  GetOwner event = uid ∨ GetOwner event = 0 →
  GetType event = SESS_DESTROYED →
  PyDict.get (GetPath event) (sessions m) = Some addr →
  objects m !! addr = Some w →
  __mgr_event_handler uid event m =
  {| notify := (SessionWatcher.Stop w (notify m)).2;
     sessmgr := sessmgr m;
     sessions := PyDict.pop (GetPath event) (sessions m);
     objects := <[addr := (SessionWatcher.Stop w (notify m)).1]> (objects m) |}.
Proof.
  intros Howner Htype Hget Hw. unfold __mgr_event_handler.
  rewrite accepted_owner by done. rewrite Htype.
  cbn [decide decide_rel SessionManagerEventType_eq_dec].
  simpl. rewrite Hget. unfold call. by rewrite Hw.
Qed.

Lemma insert_last {A} (l : list A) (x y : A) :
  <[length l := y]> (l ++ [x]) = l ++ [y].
Proof. rewrite insert_app_r_alt by lia. by rewrite Nat.sub_diag. Qed.

End Destroy.

(** X5: a destruction event from an accepted owner for a registered
    session, in any state a manager watcher can reach: the path is no
    longer in the registry, every other entry is as before, and of the
    handlers attached to any session's signal exactly the one of the
    watcher that was registered is gone; handlers of watchers that were
    replaced in the registry earlier stay attached. *)
Theorem destroy_unregisters (uid : Z) (codes : StatusCodes)
    (ops : list SessionManagerWatcher.Op) (s : Service)
    (mgr : SessionManager.t) (event : ManagerEvent) (addr : nat) :
  let m :=
    SessionManagerWatcher.run uid codes ops
      (SessionManagerWatcher.init s mgr) in
  let m' := SessionManagerWatcher.__mgr_event_handler uid event m in
  GetOwner event = uid ∨ GetOwner event = 0 →
  GetType event = SESS_DESTROYED →
  PyDict.get (GetPath event) (SessionManagerWatcher.sessions m) = Some addr →
  PyDict.get (GetPath event) (SessionManagerWatcher.sessions m') = None ∧
  (∀ p, p ≠ GetPath event →
     PyDict.get p (SessionManagerWatcher.sessions m') =
     PyDict.get p (SessionManagerWatcher.sessions m)) ∧
  addr ∈ SessionManagerWatcher.receivers (GetPath event) m ∧
  (∀ p h, h ∈ SessionManagerWatcher.receivers p m' ↔
          h ∈ SessionManagerWatcher.receivers p m ∧ h ≠ addr).
Proof.
  intros m m' Howner Htype Hget.
  assert (registry_ok m) as Hok by apply registry_ok_run, registry_ok_init.
  assert (handlers_own m) as Hown by apply handlers_own_run, handlers_own_init.
  assert (handlers_own m') as Hown'.
  { apply (handlers_own_step uid codes m
             (SessionManagerWatcher.OpManagerEvent event) Hown). }
  destruct Hok as [Hnd Hent].
  destruct (Hent _ _ Hget) as (w & Hw & Hwp & Hsp & Hcb).
  assert (m' = _) as Hm' by by apply (mgr_event_destroy uid event addr w m).
  clearbody m m'. split_and!.
  - rewrite Hm'. cbn [SessionManagerWatcher.sessions].
    by apply PyDict_get_pop_eq.
  - intros p Hp. rewrite Hm'. cbn [SessionManagerWatcher.sessions].
    by apply PyDict_get_pop_ne.
  - apply registered_receives; [by split | done].
  - intros p h. rewrite !elem_of_receivers by done.
    rewrite Hm'. cbn [SessionManagerWatcher.objects]. split.
    + intros (w0 & Hw0 & Hp0 & Hcb0).
      destruct (decide (h = addr)) as [->|Hne].
      * rewrite list_lookup_insert_eq in Hw0 by by eapply lookup_lt_Some.
        injection Hw0 as <-. done.
      * rewrite list_lookup_insert_ne in Hw0 by done.
        split; [by exists w0 | done].
    + intros [(w0 & Hw0 & Hp0 & Hcb0) Hne]. exists w0.
      by rewrite list_lookup_insert_ne.
Qed.

Lemma destroy_unregisters_witness :
  PyDict.get example_path
    (SessionManagerWatcher.sessions
       (SessionManagerWatcher.__mgr_event_handler 1000
          {| GetType := SESS_DESTROYED; GetOwner := 0;
             GetPath := example_path |} example_registered))
  = None.
Proof.
  apply (destroy_unregisters 1000 example_codes
           [SessionManagerWatcher.OpRegister example_path]
           example_service example_sessmgr
           {| GetType := SESS_DESTROYED; GetOwner := 0;
              GetPath := example_path |} 0%nat).
  - right. reflexivity.
  - reflexivity.
  - reflexivity.
Defined.

(** X6: a creation event followed by the destruction event of the same
    session, both from an accepted owner, for a path that was not
    registered, in any state a manager watcher can reach: the registry,
    the sink, the service and the handlers attached to every session's
    signal are back to what they were; what is left over is one more
    watcher object, with no handler attached. *)
Theorem create_then_destroy (uid : Z) (codes : StatusCodes)
    (ops : list SessionManagerWatcher.Op) (s : Service)
    (mgr : SessionManager.t) (owner : Z) (path : string) :
  let m :=
    SessionManagerWatcher.run uid codes ops
      (SessionManagerWatcher.init s mgr) in
  let m' :=
    SessionManagerWatcher.__mgr_event_handler uid
      {| GetType := SESS_DESTROYED; GetOwner := owner; GetPath := path |}
      (SessionManagerWatcher.__mgr_event_handler uid
         {| GetType := SESS_CREATED; GetOwner := owner; GetPath := path |} m) in
  owner = uid ∨ owner = 0 →
  PyDict.get path (SessionManagerWatcher.sessions m) = None →
  SessionManagerWatcher.sessions m' = SessionManagerWatcher.sessions m ∧
  SessionManagerWatcher.notify m' = SessionManagerWatcher.notify m ∧
  SessionManagerWatcher.sessmgr m' = SessionManagerWatcher.sessmgr m ∧
  (∀ p, SessionManagerWatcher.receivers p m' =
        SessionManagerWatcher.receivers p m) ∧
  ∃ w, SessionManagerWatcher.objects m' =
       SessionManagerWatcher.objects m ++ [w] ∧
       Session.status_callback (SessionWatcher.session w) = None.
Proof.
  intros m m' Howner Hget.
  assert (Notify_stores_None (SessionManagerWatcher.notify m)) as Hnone
    by apply never_closes.
  clearbody m.
  assert (SessionManagerWatcher.__mgr_event_handler uid
            {| GetType := SESS_CREATED; GetOwner := owner; GetPath := path |} m
          = SessionManagerWatcher.Register path m) as Hcreate.
  { unfold SessionManagerWatcher.__mgr_event_handler.
    cbn [GetOwner GetType GetPath]. by rewrite accepted_owner. }
  subst m'. rewrite Hcreate.
  rewrite (mgr_event_destroy uid _ (length (SessionManagerWatcher.objects m))
             (SessionWatcher.init (length (SessionManagerWatcher.objects m))
                (SessionManager.Retrieve path (SessionManagerWatcher.sessmgr m)))
             (SessionManagerWatcher.Register path m));
    [|done|done|apply Register_sessions_get|apply Register_objects_new].
  cbn [GetPath SessionManagerWatcher.Register SessionManagerWatcher.sessions
       SessionManagerWatcher.notify SessionManagerWatcher.sessmgr
       SessionManagerWatcher.objects].
  rewrite Stop_stores_None by done.
  rewrite insert_last.
  split_and!.
  - by apply PyDict_pop_set_new.
  - done.
  - done.
  - intros p. unfold SessionManagerWatcher.receivers.
    cbn [SessionManagerWatcher.objects]. rewrite omap_app. simpl.
    destruct (String.eqb _ p); apply app_nil_r.
  - eexists. split; [reflexivity | done].
Qed.

Lemma create_then_destroy_witness :
  SessionManagerWatcher.sessions
    (SessionManagerWatcher.__mgr_event_handler 1000
       {| GetType := SESS_DESTROYED; GetOwner := 1000;
          GetPath := "/net/openvpn/v3/sessions/s2" |}
       (SessionManagerWatcher.__mgr_event_handler 1000
          {| GetType := SESS_CREATED; GetOwner := 1000;
             GetPath := "/net/openvpn/v3/sessions/s2" |} example_registered))
  = SessionManagerWatcher.sessions example_registered.
Proof.
  apply (create_then_destroy 1000 example_codes
           [SessionManagerWatcher.OpRegister example_path]
           example_service example_sessmgr 1000
           "/net/openvpn/v3/sessions/s2").
  - left. reflexivity.
  - reflexivity.
Defined.

(** ** One notification per attached handler *)

Section NotificationsPerSignal.
Import SessionManagerWatcher.
Implicit Types (m : SessionManagerWatcher.t) (n : Notify.t).

(** With only [None] stored, a handled status sends the service exactly
    one notification. *)
Lemma evaluate_status_handled_one maj min msg w n :
  Notify_stores_None n → handled_status maj min →
  ∃ summary body,
    service_calls
      (Notify.service (SessionWatcher.__evaluate_status maj min msg w n).2)
    = service_calls (Notify.service n) ++ [notification summary body].
Proof.
  intros Hn Hh. unfold SessionWatcher.__evaluate_status.
  repeat case_decide; subst; try destruct (negb _); cbn [fst snd];
    try (exfalso; unfold handled_status in Hh;
         intuition congruence).
  - rewrite Notify_WebAuthenticate_None by done. by eexists _, _.
  - rewrite Notify_Connected_None by done. by eexists _, _.
  - rewrite Notify_Reconnected_None by done. by eexists _, _.
  - rewrite Notify_Reconnecting_None by done. by eexists _, _.
  - rewrite Notify_Disconnected_None by done. by eexists _, _.
Qed.

Lemma foldl_invoke_counts codes major minor msg maj min addrs : ∀ m,
  StatusMajor_of_value codes major = Some maj →
  StatusMinor_of_value codes minor = Some min →
  handled_status maj min →
  Notify_stores_None (notify m) →
  Forall (λ h, (h < length (objects m))%nat) addrs →
  ∃ new,
    service_calls
      (Notify.service
         (notify (foldl (invoke_handler codes major minor msg) m addrs)))
    = service_calls (Notify.service (notify m)) ++ new ∧
    length new = length addrs ∧
    Forall (λ c, ∃ summary body, c = notification summary body) new.
Proof.
  induction addrs as [|a addrs IH]; intros m Hmaj Hmin Hh Hn Hall; simpl.
  - exists []. by rewrite app_nil_r.
  - apply Forall_cons in Hall as [Ha Hall].
    destruct (lookup_lt_is_Some_2 _ _ Ha) as [w Hw].
    assert (invoke_handler codes major minor msg m a =
            {| notify := (SessionWatcher.__evaluate_status maj min msg w
                            (notify m)).2;
               sessmgr := sessmgr m; sessions := sessions m;
               objects := <[a := (SessionWatcher.__evaluate_status maj min msg
                                    w (notify m)).1]> (objects m) |}) as Hinv.
    { unfold invoke_handler, SessionWatcher.__status_chg_handler.
      rewrite Hw, Hmaj, Hmin.
      by destruct (SessionWatcher.__evaluate_status maj min msg w (notify m)). }
    destruct (evaluate_status_handled_one maj min msg w (notify m) Hn Hh)
      as (summary & body & Hone).
    destruct (evaluate_status_stores_None maj min msg w (notify m) Hn)
      as [Hn' _].
    destruct (IH (invoke_handler codes major minor msg m a) Hmaj Hmin Hh)
      as (new & Hcalls & Hlen & Hshape).
    + by rewrite Hinv.
    + rewrite Hinv. cbn [objects]. by rewrite length_insert.
    + exists (notification summary body :: new). split_and!.
      * rewrite Hcalls, Hinv. cbn [notify]. rewrite Hone.
        by rewrite <- app_assoc.
      * simpl. by rewrite Hlen.
      * apply Forall_cons. split; [by exists summary, body | done].
Qed.

End NotificationsPerSignal.

(** X7: in any state a manager watcher can reach, a status-change signal
    whose codes are those of SESSION/SESS_AUTH_URL, CONNECTION/CONN_CONNECTED,
    CONNECTION/CONN_RECONNECTING or CONNECTION/CONN_DISCONNECTED sends the
    service one [Notify] call for every handler attached to the signal of
    that session, and nothing else: a session that has been registered
    twice is notified about twice. *)
Theorem one_notification_per_handler (uid : Z) (codes : StatusCodes)
    (ops : list SessionManagerWatcher.Op) (s : Service)
    (mgr : SessionManager.t) (path : string) (major minor : Z) (msg : string)
    (maj : StatusMajor) (min : StatusMinor) :
  let m :=
    SessionManagerWatcher.run uid codes ops
      (SessionManagerWatcher.init s mgr) in
  StatusMajor_of_value codes major = Some maj →
  StatusMinor_of_value codes minor = Some min →
  handled_status maj min →
  ∃ new,
    service_calls
      (Notify.service
         (SessionManagerWatcher.notify
            (SessionManagerWatcher.StatusChange codes path major minor msg m)))
    = service_calls (Notify.service (SessionManagerWatcher.notify m)) ++ new ∧
    length new = length (SessionManagerWatcher.receivers path m) ∧
    Forall (λ c, ∃ summary body, c = notification summary body) new.
Proof.
  intros m Hmaj Hmin Hh.
  assert (Notify_stores_None (SessionManagerWatcher.notify m)) as Hnone
    by apply never_closes.
  assert (handlers_own m) as Hown by apply handlers_own_run, handlers_own_init.
  clearbody m. unfold SessionManagerWatcher.StatusChange.
  apply (foldl_invoke_counts codes major minor msg maj min); try done.
  apply Forall_forall. intros h Hin.
  apply elem_of_receivers in Hin as (w & Hw & _); [|done].
  by eapply lookup_lt_Some.
Qed.

Lemma one_notification_per_handler_witness :
  ∃ new,
    service_calls
      (Notify.service
         (SessionManagerWatcher.notify
            (SessionManagerWatcher.StatusChange example_codes example_path
               2 12 ""
               (SessionManagerWatcher.Register example_path
                  example_registered))))
    = service_calls
        (Notify.service
           (SessionManagerWatcher.notify
              (SessionManagerWatcher.Register example_path example_registered)))
      ++ new ∧
    length new = 2%nat.
Proof.
  destruct (one_notification_per_handler 1000 example_codes
              [SessionManagerWatcher.OpRegister example_path;
               SessionManagerWatcher.OpRegister example_path]
              example_service example_sessmgr example_path 2 12 ""
              CONNECTION CONN_RECONNECTING eq_refl eq_refl)
    as (new & Hcalls & Hlen & _).
  - unfold handled_status. tauto.
  - exists new. split; [exact Hcalls | exact Hlen].
Defined.

(** ** Start-up of the session watcher *)

Section Startup.
Import SessionManagerWatcher.
Implicit Types (m : SessionManagerWatcher.t).

Lemma elem_of_keys_Register path p m :
  p ∈ PyDict.keys (sessions (Register path m)) ↔
  p ∈ PyDict.keys (sessions m) ∨ p = path.
Proof.
  cbn [Register sessions]. rewrite PyDict_keys_set.
  destruct (PyDict.contains path (sessions m)) eqn:E.
  - apply PyDict_contains_keys in E. split; [by left|].
    intros [H| ->]; done.
  - rewrite elem_of_app, list_elem_of_singleton. done.
Qed.

Lemma startup_run uid codes available : ∀ m,
  (∀ p, p ∈ PyDict.keys (sessions (run uid codes (startup available) m)) ↔
        p ∈ PyDict.keys (sessions m) ∨ p ∈ available.*1) ∧
  length (objects (run uid codes (startup available) m))
  = (length (objects m) + length available)%nat.
Proof.
  induction available as [|[path status] rest IH]; intros m.
  - simpl. split; [|lia]. intros p. rewrite elem_of_nil. tauto.
  - change (run uid codes (startup ((path, status) :: rest)) m)
      with (run uid codes (startup rest)
              (CheckStatus path status (Register path m))).
    destruct (IH (CheckStatus path status (Register path m))) as [Hkeys Hlen].
    assert (sessions (CheckStatus path status (Register path m))
            = sessions (Register path m) ∧
            length (objects (CheckStatus path status (Register path m)))
            = length (objects (Register path m))) as [Hs Hl].
    { unfold CheckStatus.
      destruct (PyDict.get path (sessions (Register path m))) as [addr|];
        [|done].
      destruct (call_same_session addr (SessionWatcher.CheckStatus status)
                  (Register path m)) as (? & ? & _); [|done].
      intros w n.
      apply (evaluate_status_fields (status_major status)
               (status_minor status) (status_message status) w n). }
    split.
    + intros p. rewrite Hkeys, Hs, elem_of_keys_Register.
      simpl. rewrite elem_of_cons. tauto.
    + rewrite Hlen, Hl. cbn [Register objects].
      rewrite length_app. simpl. lia.
Qed.

End Startup.

(** X8: when the main program of the session watcher reaches its main
    loop, the registry holds exactly the paths of the sessions that
    [FetchAvailableSessions()] listed, each once, and one watcher object
    has been constructed for every listed session. *)
Theorem startup_registers_available (uid : Z) (codes : StatusCodes)
    (s : Service) (mgr : SessionManager.t)
    (available : list (string * Status)) :
  (∀ p, p ∈ PyDict.keys
              (SessionManagerWatcher.sessions
                 (SessionManagerWatcher.main uid codes s mgr available []))
        ↔ p ∈ available.*1) ∧
  NoDup (PyDict.keys
           (SessionManagerWatcher.sessions
              (SessionManagerWatcher.main uid codes s mgr available []))) ∧
  length (SessionManagerWatcher.objects
            (SessionManagerWatcher.main uid codes s mgr available []))
  = length available.
Proof.
  unfold SessionManagerWatcher.main. rewrite app_nil_r.
  destruct (startup_run uid codes available (SessionManagerWatcher.init s mgr))
    as [Hkeys Hlen].
  split_and!.
  - intros p. rewrite Hkeys. simpl. rewrite elem_of_nil. tauto.
  - apply registry_ok_run, registry_ok_init.
  - by rewrite Hlen.
Qed.

(** ** The main loop of the log tailer *)

Section TailerLoop.
Import WatchSessionLog.
Implicit Types (c : Console) (signals : list Incoming).

Lemma LogHandler_quit_called now group catg msg c :
  quit_called (LogHandler now group catg msg c) = quit_called c.
Proof. by rewrite LogHandler_eq. Qed.

(** After a status signal the quit flag is up exactly when the signal is
    a stopping one; a signal whose codes do not convert changes nothing. *)
Lemma StatusHandler_stops codes now major minor msg c :
  quit_called c = false →
  quit_called (default c (StatusHandler codes now major minor msg c)) = true ↔
  stops codes (StatusSignal now major minor msg).
Proof.
  intros Hc. unfold StatusHandler. cbn [stops].
  destruct (StatusMajor_of_value codes major) as [maj|];
    [|simpl; rewrite Hc; split; [done | by intros (? & ? & ? & _)]].
  destruct (StatusMinor_of_value codes minor) as [min|];
    [|simpl; rewrite Hc; split; [done | by intros (? & ? & _ & ? & _)]].
  unfold terminal_status.
  destruct maj, min; simpl; rewrite ?Hc;
    (split;
       [intros H;
        first [discriminate H
              | eexists _, _; split_and!; [reflexivity | reflexivity | tauto]]
       | intros (? & ? & [= <-] & [= <-] & H);
         first [reflexivity | exfalso; intuition congruence]]).
Qed.

Lemma mainloop_run_returns codes signals : ∀ c,
  quit_called c = false →
  (mainloop_run codes signals c).2 = true ↔ Exists (stops codes) signals.
Proof.
  induction signals as [|sig signals IH]; intros c Hc.
  - simpl. rewrite Exists_nil. done.
  - rewrite Exists_cons.
    destruct sig as [now group catg msg|now major minor msg|];
      cbn [mainloop_run].
    + cbv zeta. rewrite LogHandler_quit_called, Hc.
      rewrite IH by by rewrite LogHandler_quit_called.
      cbn [stops]. tauto.
    + cbv zeta. pose proof (StatusHandler_stops codes now major minor msg c Hc)
        as Hstop.
      destruct (quit_called (default c (StatusHandler codes now major minor msg c)))
        eqn:E.
      * simpl. tauto.
      * rewrite IH by done. intuition congruence.
    + simpl. tauto.
Qed.

Lemma mainloop_run_cut codes sig after before : ∀ c,
  quit_called c = false →
  Forall (λ x, ¬ stops codes x) before → stops codes sig →
  mainloop_run codes (before ++ sig :: after) c
  = mainloop_run codes (before ++ [sig]) c.
Proof.
  induction before as [|x before IH]; intros c Hc Hbefore Hsig.
  - destruct sig as [now group catg msg|now major minor msg|];
      cbn [app mainloop_run]; [done| |done].
    cbv zeta.
    apply (StatusHandler_stops codes now major minor msg c Hc) in Hsig.
    by rewrite Hsig.
  - apply Forall_cons in Hbefore as [Hx Hbefore].
    destruct x as [now group catg msg|now major minor msg|];
      cbn [app mainloop_run].
    + cbv zeta. rewrite LogHandler_quit_called, Hc.
      apply IH; [by rewrite LogHandler_quit_called | done | done].
    + cbv zeta.
      pose proof (StatusHandler_stops codes now major minor msg c Hc) as Hstop.
      destruct (quit_called (default c (StatusHandler codes now major minor msg c)))
        eqn:E.
      * exfalso. apply Hx. by apply Hstop.
      * by apply IH.
    + exfalso. by apply Hx.
Qed.

End TailerLoop.

(** X9: the main loop of the log tailer comes back exactly when a
    stopping signal arrives (the interrupt, or a status signal of one of
    the four terminal statuses); log signals and other status signals
    never end it.  Whatever arrives after the first stopping signal is not
    handled: the output is that of the signals up to and including it. *)
Theorem mainloop_returns_at_first_stop (codes : StatusCodes)
    (signals : list WatchSessionLog.Incoming) (c : WatchSessionLog.Console) :
  WatchSessionLog.quit_called c = false →
  ((WatchSessionLog.mainloop_run codes signals c).2 = true ↔
   Exists (stops codes) signals) ∧
  (∀ before sig after,
     signals = before ++ sig :: after →
     Forall (λ x, ¬ stops codes x) before → stops codes sig →
     WatchSessionLog.mainloop_run codes signals c
     = WatchSessionLog.mainloop_run codes (before ++ [sig]) c).
Proof.
  intros Hc. split.
  - by apply mainloop_run_returns.
  - intros before sig after -> Hbefore Hsig. by apply mainloop_run_cut.
Qed.

Lemma mainloop_returns_at_first_stop_witness :
  WatchSessionLog.mainloop_run example_codes
    [WatchSessionLog.LogSignal "10:00" 1 2 "connecting";
     WatchSessionLog.StatusSignal "10:01" 2 11 "bad credentials";
     WatchSessionLog.LogSignal "10:02" 1 2 "never printed"]
    {| WatchSessionLog.stdout := []; WatchSessionLog.quit_called := false |}
  = WatchSessionLog.mainloop_run example_codes
      ([WatchSessionLog.LogSignal "10:00" 1 2 "connecting"] ++
       [WatchSessionLog.StatusSignal "10:01" 2 11 "bad credentials"])
      {| WatchSessionLog.stdout := []; WatchSessionLog.quit_called := false |}.
Proof.
  destruct (mainloop_returns_at_first_stop example_codes
              [WatchSessionLog.LogSignal "10:00" 1 2 "connecting";
               WatchSessionLog.StatusSignal "10:01" 2 11 "bad credentials";
               WatchSessionLog.LogSignal "10:02" 1 2 "never printed"]
              {| WatchSessionLog.stdout := [];
                 WatchSessionLog.quit_called := false |}
              eq_refl) as [_ Hcut].
  apply (Hcut [WatchSessionLog.LogSignal "10:00" 1 2 "connecting"]
           (WatchSessionLog.StatusSignal "10:01" 2 11 "bad credentials")
           [WatchSessionLog.LogSignal "10:02" 1 2 "never printed"]).
  - reflexivity.
  - apply Forall_cons. split; [simpl; tauto | apply Forall_nil_2].
  - exists CONNECTION, CONN_AUTH_FAILED. unfold terminal_status.
    split_and!; [reflexivity | reflexivity | tauto].
Defined.

(** ** The main program of the log tailer *)

Section TailerMain.
Import WatchSessionLog.

(** Where [watch] ends, by whether the main loop came back *)
Lemma watch_eq codes opts session_path signals before :
  watch codes opts session_path signals before =
  let acts :=
    before ++ [Retrieve session_path; LogCallback true;
               StatusChangeCallback true] ++
    match log_level opts with
    | Some level => [SetProperty "log_verbosity" level]
    | None => []
    end in
  let r := mainloop_run codes signals {| stdout := []; quit_called := false |} in
  if r.2 then
    {| actions := acts ++ [MainloopRun; LogCallback false];
       console := r.1; outcome := Exit 0 |}
  else
    {| actions := acts ++ [MainloopRun]; console := r.1;
       outcome := InMainloop |}.
Proof.
  unfold watch. cbv zeta.
  destruct (mainloop_run codes signals _) as [c returned].
  destruct (log_level opts) as [level|]; cbn [fst snd];
    rewrite <- ?app_assoc; simpl; by rewrite ?app_nil_r.
Qed.

End TailerMain.



(** X11: a configuration name that the lookup resolves to exactly one
    session path makes the log tailer do what it does when given that path
    with --path: the same output and the same outcome, and the same calls
    after the lookup. *)
Theorem unique_config_is_path (codes : StatusCodes)
    (lookup : string → list string) (level : option string)
    (name session_path : string) (signals : list WatchSessionLog.Incoming) :
  lookup name = [session_path] →
  let by_name :=
    WatchSessionLog.main codes lookup
      {| WatchSessionLog.log_level := level;
         WatchSessionLog.config := Some name;
         WatchSessionLog.path := None |} signals in
  let by_path :=
    WatchSessionLog.main codes lookup
      {| WatchSessionLog.log_level := level;
         WatchSessionLog.config := None;
         WatchSessionLog.path := Some session_path |} signals in
  WatchSessionLog.actions by_name
  = WatchSessionLog.LookupConfigName name :: WatchSessionLog.actions by_path ∧
  WatchSessionLog.console by_name = WatchSessionLog.console by_path ∧
  WatchSessionLog.outcome by_name = WatchSessionLog.outcome by_path.
Proof.
  intros Hlookup by_name by_path. subst by_name by_path.
  unfold WatchSessionLog.main.
  cbn [WatchSessionLog.config WatchSessionLog.path]. rewrite Hlookup.
  rewrite !watch_eq. cbv zeta. cbn [WatchSessionLog.log_level].
  by destruct (WatchSessionLog.mainloop_run codes signals _).2.
Qed.

Lemma unique_config_is_path_witness :
  WatchSessionLog.outcome
    (WatchSessionLog.main example_codes (λ _, [example_path])
       example_options [WatchSessionLog.KeyboardInterrupt])
  = WatchSessionLog.outcome
      (WatchSessionLog.main example_codes (λ _, [example_path])
         {| WatchSessionLog.log_level := None;
            WatchSessionLog.config := None;
            WatchSessionLog.path := Some example_path |}
         [WatchSessionLog.KeyboardInterrupt]).
Proof.
  apply (unique_config_is_path example_codes (λ _, [example_path]) None
           "foo" example_path [WatchSessionLog.KeyboardInterrupt]).
  reflexivity.
Defined.

(** ** Splitting a log message *)

Section Splitting.
Import WatchSessionLog.

Lemma ascii_eqb_newline ch : Ascii.eqb ch newline = true → ch = newline.
Proof. apply Ascii.eqb_eq. Qed.

Lemma concat_cons_not_nil sep (l : string) (ls : list string) :
  ls ≠ [] →
  String.concat sep (l :: ls) = l +:+ sep +:+ String.concat sep ls.
Proof. by destruct ls. Qed.

Lemma concat_cons_head sep ch (l : string) (ls : list string) :
  String.concat sep (String ch l :: ls) = String ch (String.concat sep (l :: ls)).
Proof. by destruct ls. Qed.

End Splitting.

(** X12: the pieces a log message is split into contain no newline
    character, and putting them together again with a newline between
    neighbours gives the message back: nothing of the message is lost or
    moved by the splitting. *)
Theorem split_lines_join (msg : string) :
  String.concat (String WatchSessionLog.newline EmptyString)
    (WatchSessionLog.split_lines msg) = msg ∧
  Forall (λ l, WatchSessionLog.newline ∉ list_ascii_of_string l)
    (WatchSessionLog.split_lines msg).
Proof.
  induction msg as [|ch rest [IHjoin IHnl]].
  - split; [done|]. apply Forall_singleton. apply not_elem_of_nil.
  - cbn [WatchSessionLog.split_lines].
    destruct (Ascii.eqb ch WatchSessionLog.newline) eqn:E.
    + apply ascii_eqb_newline in E. subst ch. split.
      * rewrite concat_cons_not_nil by apply split_lines_not_nil.
        simpl. by rewrite IHjoin.
      * apply Forall_cons. split; [apply not_elem_of_nil | done].
    + pose proof (split_lines_not_nil rest) as Hne.
      destruct (WatchSessionLog.split_lines rest) as [|l ls]; [done|].
      apply Forall_cons in IHnl as [Hl Hls]. split.
      * by rewrite concat_cons_head, IHjoin.
      * apply Forall_cons. split; [|done].
        simpl. apply not_elem_of_cons. split; [|done].
        intros <-. by rewrite Ascii.eqb_refl in E.
Qed.

(** X13: a newline at the very start or at the very end of a log message
    makes no difference to what the log handler prints: no blank line,
    and no line moved. *)
Theorem LogHandler_outer_newlines (now : string) (group catg : Z)
    (msg : string) (c : WatchSessionLog.Console) :
  WatchSessionLog.LogHandler now group catg
    (String WatchSessionLog.newline msg) c
  = WatchSessionLog.LogHandler now group catg msg c ∧
  WatchSessionLog.LogHandler now group catg
    (msg +:+ String WatchSessionLog.newline EmptyString) c
  = WatchSessionLog.LogHandler now group catg msg c.
Proof.
  rewrite !LogHandler_eq, split_lines_newline. split.
  - cbn [WatchSessionLog.split_lines]. rewrite Ascii.eqb_refl.
    by rewrite filter_cons_False by (intros H; by apply H).
  - rewrite filter_app. cbn [WatchSessionLog.split_lines].
    rewrite (filter_cons_False _ EmptyString []) by (intros H; by apply H).
    by rewrite filter_nil, app_nil_r.
Qed.

(** ** What a CONNECTED event is reported as *)

Section ConnectedText.
Implicit Types (w : SessionWatcher.t) (n : Notify.t).

Lemma deliver_app events1 events2 : ∀ w n,
  SessionWatcher.deliver (events1 ++ events2) w n =
  SessionWatcher.deliver events2
    (SessionWatcher.deliver events1 w n).1
    (SessionWatcher.deliver events1 w n).2.
Proof.
  induction events1 as [|e events1 IH]; intros w n.
  - simpl. by destruct (SessionWatcher.deliver events2 w n).
  - rewrite <- app_comm_cons, !deliver_cons. apply IH.
Qed.

Lemma deliver_stores_None events : ∀ w n,
  Notify_stores_None n →
  Notify_stores_None (SessionWatcher.deliver events w n).2.
Proof.
  induction events as [|e events IH]; intros w n Hn; [done|].
  rewrite deliver_cons. apply IH. by apply evaluate_status_stores_None.
Qed.

Lemma deliver_fields events : ∀ w n,
  SessionWatcher.path (SessionWatcher.deliver events w n).1
  = SessionWatcher.path w ∧
  SessionWatcher.cfgname (SessionWatcher.deliver events w n).1
  = SessionWatcher.cfgname w.
Proof.
  induction events as [|e events IH]; intros w n; [done|].
  rewrite deliver_cons.
  destruct (IH (SessionWatcher.__evaluate_status (status_major e)
                  (status_minor e) (status_message e) w n).1
               (SessionWatcher.__evaluate_status (status_major e)
                  (status_minor e) (status_message e) w n).2) as [-> ->].
  by destruct (evaluate_status_fields (status_major e) (status_minor e)
                 (status_message e) w n) as (_ & -> & ->).
Qed.

End ConnectedText.

(** X14: what the user is told when a session connects.  For a watcher
    that starts with the flag false, a CONNECTION/CONNECTED event is
    reported as "OpenVPN session reconnected" when the events before it
    contain a CONNECTION/RECONNECTING with no CONNECTION/CONNECTED after
    it, and as "OpenVPN - Authentication Successful" otherwise; either
    way it is one notification, naming the session's configuration. *)
Theorem connected_reported_by_flag (events : list Status) (msg : string)
    (w : SessionWatcher.t) (n : Notify.t) :
  SessionWatcher.reconnecting w = false →
  Notify_stores_None n →
  let before := SessionWatcher.deliver events w n in
  let after :=
    SessionWatcher.deliver
      (events ++ [ {| status_major := CONNECTION;
                      status_minor := CONN_CONNECTED;
                      status_message := msg |} ]) w n in
  (reconnect_pending ends_reconnect events →
   service_calls (Notify.service after.2)
   = service_calls (Notify.service before.2) ++
     [notification "OpenVPN session reconnected"
        ("Session " +:+ quoted (SessionWatcher.cfgname w)
         +:+ " reconnected successfully")]) ∧
  (¬ reconnect_pending ends_reconnect events →
   service_calls (Notify.service after.2)
   = service_calls (Notify.service before.2) ++
     [notification "OpenVPN - Authentication Successful"
        ("OpenVPN session " +:+ quoted (SessionWatcher.cfgname w)
         +:+ " connected successfully")]).
Proof.
  intros Hw Hn before after. subst before after.
  rewrite deliver_app. cbn [SessionWatcher.deliver].
  rewrite evaluate_CONNECTED.
  pose proof (deliver_reconnecting events w n) as Hflag.
  pose proof (deliver_stores_None events w n Hn) as Hn'.
  destruct (deliver_fields events w n) as [Hpath Hcfg].
  destruct (SessionWatcher.deliver events w n) as [w' n'].
  cbn [fst snd] in *. rewrite Hw in Hflag.
  destruct (SessionWatcher.reconnecting w') eqn:E.
  - rewrite Notify_Reconnected_None by done. rewrite Hcfg.
    split; [done|]. intros Hnot. exfalso. apply Hnot.
    destruct (proj1 Hflag eq_refl) as [H|[H _]]; [done | discriminate H].
  - rewrite Notify_Connected_None by done. rewrite Hcfg.
    split; [|done]. intros Hpend.
    assert (false = true) as H by (apply Hflag; by left). discriminate H.
Qed.

Lemma connected_reported_by_flag_witness :
  service_calls
    (Notify.service
       (SessionWatcher.deliver
          ([example_status CONNECTION CONN_RECONNECTING;
            example_status CONNECTION CONN_DISCONNECTED] ++
           [ {| status_major := CONNECTION; status_minor := CONN_CONNECTED;
                status_message := "" |} ])
          example_watcher (Notify.init example_service)).2)
  = service_calls
      (Notify.service
         (SessionWatcher.deliver
            [example_status CONNECTION CONN_RECONNECTING;
             example_status CONNECTION CONN_DISCONNECTED]
            example_watcher (Notify.init example_service)).2) ++
    [notification "OpenVPN session reconnected"
       ("Session " +:+ quoted (SessionWatcher.cfgname example_watcher)
        +:+ " reconnected successfully")].
Proof.
  apply (connected_reported_by_flag
           [example_status CONNECTION CONN_RECONNECTING;
            example_status CONNECTION CONN_DISCONNECTED] ""
           example_watcher (Notify.init example_service)).
  - reflexivity.
  - apply Notify_init_stores_None.
  - exists [], (example_status CONNECTION CONN_RECONNECTING),
      [example_status CONNECTION CONN_DISCONNECTED].
    split_and!; [reflexivity | done |].
    apply Forall_singleton. intros [_ H]. discriminate H.
Defined.

(** ** Signals of one session and the watchers of another *)

Section Isolation.
Import SessionManagerWatcher.
Implicit Types (m : SessionManagerWatcher.t).



End Isolation.


